(** * Request governance and session rotation: a shallow embedding

    The development follows [rate_limiter.py] and [session_manager.py].

    Numbers.  Python [int] is [Z].  Python [float] values (delays, rates,
    timestamps) are read as the rationals they denote and modelled by [Q],
    compared with [Qeq]/[Qle]/[Qlt]; the clock ([time.time()]) and the random
    source ([random.random()], [random.uniform]) are explicit inputs.

    Effects.  The retry wrapper threads the caller's world through the wrapped
    action and records what it does in a trace; the session manager threads
    its in-memory pool and the file system, a finite map from paths to
    contents. *)

From Stdlib Require Import QArith Qminmax ZArith String Ascii List Sorted Lia Lqa.
From stdpp Require Import gmap strings list.
Import ListNotations.

(** ** rate_limiter.py: AdaptiveRateLimiter *)

Module RateLimiter.

Inductive RateLimitStrategy := CONSERVATIVE | AGGRESSIVE | ADAPTIVE.

Definition strategy_eqb (a b : RateLimitStrategy) : bool :=
  match a, b with
  | CONSERVATIVE, CONSERVATIVE | AGGRESSIVE, AGGRESSIVE | ADAPTIVE, ADAPTIVE => true
  | _, _ => false
  end.

Record AdaptiveRateLimiter := mkLimiter {
  strategy : RateLimitStrategy;
  success_count : Z;
  failure_count : Z;
  consecutive_failures : Z;
  last_request_time : Q
}.

(** [__init__] *)
Definition init (s : RateLimitStrategy) : AdaptiveRateLimiter :=
  mkLimiter s 0 0 0 0.0%Q.

(** [x > y] on floats *)
Definition Qgtb (x y : Q) : bool := negb (Qle_bool x y).

Definition _get_base_delay (self : AdaptiveRateLimiter) : Q * Q :=
  if strategy_eqb (strategy self) CONSERVATIVE then (3.5, 7.0)%Q
  else if strategy_eqb (strategy self) AGGRESSIVE then (1.0, 3.0)%Q
  else (2.0, 5.0)%Q.

(** [(self.success_count / total) if total > 0 else dflt] *)
Definition rate_or (dflt : Q) (self : AdaptiveRateLimiter) : Q :=
  let total := (success_count self + failure_count self)%Z in
  if (total >? 0)%Z then (inject_Z (success_count self) / inject_Z total)%Q
  else dflt.

(** the [success_rate] local of [_calculate_delay] *)
Definition delay_success_rate (self : AdaptiveRateLimiter) : Q :=
  rate_or 1.0%Q self.

(** the value of [multiplier] when [_calculate_delay] reaches [delay_min] *)
Definition delay_multiplier (self : AdaptiveRateLimiter) : Q :=
  let multiplier := 1.0%Q in
  if strategy_eqb (strategy self) ADAPTIVE then
    let success_rate := delay_success_rate self in
    let multiplier :=
      if Qgtb success_rate 0.9 then (multiplier * 0.8)%Q
      else if Qgtb success_rate 0.7 then (multiplier * 1.0)%Q
      else (multiplier * 1.5)%Q in
    if (consecutive_failures self >? 0)%Z then
      (multiplier + Qmin (inject_Z (consecutive_failures self) * 0.5) 6.0)%Q
    else multiplier
  else multiplier.

(** [random.uniform(a, b)] is [a + (b - a) * random.random()] *)
Definition uniform (a b u : Q) : Q := (a + (b - a) * u)%Q.

(** [_calculate_delay]; [u] is the draw of [random.random()] *)
Definition _calculate_delay (self : AdaptiveRateLimiter) (u : Q) : Q :=
  let '(base_min, base_max) := _get_base_delay self in
  let multiplier := delay_multiplier self in
  let delay_min := (base_min * multiplier)%Q in
  let delay_max := (base_max * multiplier)%Q in
  uniform delay_min delay_max u.

Definition record_success (self : AdaptiveRateLimiter) : AdaptiveRateLimiter :=
  mkLimiter (strategy self) (success_count self + 1) (failure_count self) 0
            (last_request_time self).

Definition record_failure (self : AdaptiveRateLimiter) : AdaptiveRateLimiter :=
  mkLimiter (strategy self) (success_count self) (failure_count self + 1)
            (consecutive_failures self + 1) (last_request_time self).

Record Stats := mkStats {
  st_success_count : Z;
  st_failure_count : Z;
  st_consecutive_failures : Z;
  st_success_rate : Q
}.

Definition get_stats (self : AdaptiveRateLimiter) : Stats :=
  let success_rate := rate_or 0.0%Q self in
  mkStats (success_count self) (failure_count self)
          (consecutive_failures self) success_rate.

(** [wait]: the delay slept and the limiter it leaves; [u] is the draw of
    [random.random()], [now] the reading of [time.time()] after the sleep *)
Definition wait (self : AdaptiveRateLimiter) (u now : Q)
  : Q * AdaptiveRateLimiter :=
  let delay := _calculate_delay self u in
  (delay, mkLimiter (strategy self) (success_count self) (failure_count self)
                    (consecutive_failures self) now).

(** An outcome reported to the limiter, and the limiter after a sequence of
    reports. *)
Inductive report := Succeeded | Failed.

Definition record (self : AdaptiveRateLimiter) (r : report) : AdaptiveRateLimiter :=
  match r with
  | Succeeded => record_success self
  | Failed => record_failure self
  end.

Definition replay (self : AdaptiveRateLimiter) (rs : list report)
  : AdaptiveRateLimiter :=
  List.fold_left record rs self.

Definition is_failed (r : report) : bool :=
  match r with Failed => true | Succeeded => false end.

(** the number of reports of one kind *)
Definition count_failed (rs : list report) : Z :=
  Z.of_nat (List.length (List.filter is_failed rs)).

Definition count_succeeded (rs : list report) : Z :=
  Z.of_nat (List.length (List.filter (fun r => negb (is_failed r)) rs)).

(** the length of the run of failures that starts the list *)
Fixpoint leading_failures (rs : list report) : Z :=
  match rs with
  | Failed :: r => (1 + leading_failures r)%Z
  | _ => 0%Z
  end.

(** the length of the run of failures that ends the list *)
Definition trailing_failures (rs : list report) : Z :=
  leading_failures (List.rev rs).

End RateLimiter.

(** ** rate_limiter.py: RequestThrottler *)

Module Throttler.

Record RequestThrottler := mkThrottler {
  requests_per_minute : Z;
  _interval : Q;
  _last_ts : Q
}.

(** [__init__] *)
Definition init (rpm : Z) : RequestThrottler :=
  mkThrottler rpm (60.0 / inject_Z (Z.max 1 rpm))%Q 0.0%Q.

(** [can_make_request]; [now] is the reading of [time.time()] *)
Definition can_make_request (self : RequestThrottler) (now : Q)
  : Q * RequestThrottler :=
  let next_allowed := (_last_ts self + _interval self)%Q in
  if Qle_bool next_allowed now then
    (0.0%Q, mkThrottler (requests_per_minute self) (_interval self) now)
  else
    let wait := (next_allowed - now)%Q in
    (wait, self).

(** Successive calls at the clock readings [clock]; the result lists the
    readings at which a request was admitted, in call order. *)
Fixpoint admissions (self : RequestThrottler) (clock : list Q) : list Q :=
  match clock with
  | [] => []
  | now :: rest =>
      let '(wait, self') := can_make_request self now in
      if Qeq_bool wait 0 then now :: admissions self' rest
      else admissions self' rest
  end.

(** [wait_if_needed]: the time slept ([0] when it does not sleep) and the
    throttler it leaves *)
Definition wait_if_needed (self : RequestThrottler) (now : Q)
  : Q * RequestThrottler :=
  let '(wait, self') := can_make_request self now in
  if negb (Qle_bool wait 0) then (wait, self') else (0%Q, self').

(** [get_stats]: the configured rate and the interval *)
Definition get_stats (self : RequestThrottler) : Z * Q :=
  (requests_per_minute self, _interval self).

End Throttler.

(** ** rate_limiter.py: intelligent_retry *)

Module Retry.

(** What the wrapper reads off a caught exception [e]. *)
Record PyError := mkError {
  err_str : string;                  (* str(e) *)
  err_status_code : option Z;        (* getattr(e, "status_code", None) *)
  err_response_status : option Z     (* getattr(getattr(e, "response", None), "status_code", None) *)
}.

(** [c.lower()] on an ASCII character *)
Definition lower_ascii (c : ascii) : ascii :=
  let n := nat_of_ascii c in
  if (65 <=? n)%nat && (n <=? 90)%nat then ascii_of_nat (n + 32) else c.

(** [s.lower()] *)
Fixpoint lower (s : string) : string :=
  match s with
  | EmptyString => EmptyString
  | String c r => String (lower_ascii c) (lower r)
  end.

(** [needle in hay] *)
Fixpoint contains (needle hay : string) : bool :=
  if String.prefix needle hay then true
  else match hay with
       | EmptyString => false
       | String _ r => contains needle r
       end.

(** the alternatives of the pattern given to [re.search] *)
Definition rate_limit_vocabulary : list string :=
  ["rate limit"; "too many requests"; "temporarily blocked";
   "checkpoint_required"; "challenge_required"; "login required";
   "blocked"]%string.

(** [a or b] on optional status codes: [None] and [0] are falsy *)
Definition py_or (a b : option Z) : option Z :=
  match a with
  | Some z => if (z =? 0)%Z then b else Some z
  | None => b
  end.

Definition is_rate_limit (e : PyError) : bool :=
  let msg := lower (err_str e) in
  let status_code := py_or (err_status_code e) (err_response_status e) in
  let by_status := match status_code with
                   | Some z => (z =? 429)%Z
                   | None => false
                   end in
  let by_message := existsb (fun p => contains p msg) rate_limit_vocabulary in
  by_status || by_message.

(** the [multiplier] local of the handler *)
Definition backoff_multiplier (rate_limit : bool) (attempt : Z) : Q :=
  if rate_limit then (2.0 + inject_Z attempt * 1.2)%Q
  else (1.0 + inject_Z attempt * 0.5)%Q.

(** the [wait] local of the handler; [u] is the draw of [random.random()] *)
Definition backoff_wait (base_delay max_delay : Q) (e : PyError)
           (attempt : Z) (u : Q) : Q :=
  let multiplier := backoff_multiplier (is_rate_limit e) attempt in
  (Qmin max_delay (base_delay * inject_Z (2 ^ (attempt - 1)) * multiplier)
   + u * 1.5)%Q.

Inductive event := Call | Sleep (wait : Q).

Definition calls (tr : list event) : nat :=
  List.length (List.filter (fun ev => match ev with Call => true | _ => false end) tr).

Fixpoint sleeps (tr : list event) : list Q :=
  match tr with
  | [] => []
  | Call :: r => sleeps r
  | Sleep w :: r => w :: sleeps r
  end.

(** The exceptions that can leave the wrapper.  The handler's bare [raise]
    re-raises the exception it caught, the very object the action raised;
    the other statements of the handler raise exceptions of their own, which
    no [try] of the wrapper catches.  [RetryExhausted cause] is an exception
    of the class that the specification names, wrapping [cause]: the module
    defines no class of that name, and the wrapper constructs no exception. *)
Inductive raised :=
| Reraised (e : PyError)        (* [raise]: the caught exception itself *)
| OverflowError_float           (* [base_delay * 2 ** (attempt - 1)]: int too large to convert to float *)
| ValueError_sleep              (* [time.sleep(wait)]: sleep length must be non-negative *)
| OverflowError_sleep           (* [time.sleep(wait)]: length beyond what the platform accepts *)
| AttributeError_name           (* [func.__name__] on a callable without that attribute *)
| RetryExhausted (cause : PyError).

(** [float * int] converts the integer to a float first, which raises once
    the integer reaches [2 ** 1024]; [base_delay] is a float, as annotated. *)
Definition pow_overflows (attempt : Z) : bool := (1024 <=? attempt - 1)%Z.

(** What [time.sleep(wait)] raises, if anything: [sleep_max] is the longest
    length the platform's [time.sleep] accepts. *)
Definition time_sleep (sleep_max wait : Q) : option raised :=
  if Qle_bool 0 wait then
    if Qle_bool wait sleep_max then None else Some OverflowError_sleep
  else Some ValueError_sleep.

Section Wrapper.

(** the caller's world and the action's values *)
Variables W V : Type.

Inductive result := Ok (v : V) | Err (e : PyError).

(** how a call of the wrapper ends; [ReturnsNone] is falling off the
    end of the function body *)
Inductive outcome := Returns (v : V) | Raises (r : raised) | ReturnsNone.

Variables (max_retries : Z) (base_delay max_delay : Q).
(** the wrapped action [func], applied to the caller's arguments *)
Variable func : W -> result * W.
(** the draw of [random.random()] in the handler of attempt [k] *)
Variable rnd : Z -> Q.
(** whether [func] has a [__name__], which the last handler logs *)
Variable func_has_name : bool.
(** the longest sleep [time.sleep] accepts on the platform *)
Variable sleep_max : Q.

(** The trace records the calls of [func] and of [time.sleep], the latter
    with the length asked for, whether or not [time.sleep] accepts it. *)
Fixpoint wrapper_loop (fuel : nat) (attempt : Z) (w : W)
  : option (outcome * W * list event) :=
  match fuel with
  | O => None
  | S fuel' =>
      if (attempt <? max_retries)%Z then
        match func w with
        | (Ok v, w') => Some (Returns v, w', [Call])
        | (Err e, w') =>
            let attempt := (attempt + 1)%Z in
            if pow_overflows attempt then
              Some (Raises OverflowError_float, w', [Call])
            else
              let wait := backoff_wait base_delay max_delay e attempt (rnd attempt) in
              match time_sleep sleep_max wait with
              | Some r => Some (Raises r, w', [Call; Sleep wait])
              | None =>
                  if (attempt >=? max_retries)%Z then
                    if func_has_name then
                      Some (Raises (Reraised e), w', [Call; Sleep wait])
                    else
                      Some (Raises AttributeError_name, w', [Call; Sleep wait])
                  else
                    match wrapper_loop fuel' attempt w' with
                    | Some (o, w'', tr) => Some (o, w'', Call :: Sleep wait :: tr)
                    | None => None
                    end
              end
        end
      else Some (ReturnsNone, w, [])
  end.

(** [wrapper]: the loop started at [attempt = 0]; one unit of fuel per
    turn of the loop, plus one for the final test. *)
Definition wrapper (w : W) : option (outcome * W * list event) :=
  wrapper_loop (S (Z.to_nat max_retries)) 0 w.

(** The world reached after [n] calls of an action, and the errors it
    raised, when every call fails. *)
Fixpoint nth_error_of (n : nat) (w : W) : option (PyError * W) :=
  match func w with
  | (Ok _, _) => None
  | (Err e, w') =>
      match n with
      | O => Some (e, w')
      | S n' => nth_error_of n' w'
      end
  end.

(** The world after [k] calls of the action in a row that all fail; [None]
    when one of them succeeds. *)
Fixpoint after_failures (k : nat) (w : W) : option W :=
  match k with
  | O => Some w
  | S k' =>
      match func w with
      | (Err _, w') => after_failures k' w'
      | (Ok _, _) => None
      end
  end.

End Wrapper.

Arguments Ok {V} v.
Arguments Err {V} e.
Arguments Returns {V} v.
Arguments Raises {V} r.
Arguments ReturnsNone {V}.
Arguments wrapper_loop {W V}.
Arguments wrapper {W V}.
Arguments nth_error_of {W V}.
Arguments after_failures {W V}.

End Retry.

(** ** session_manager.py *)

Module Sessions.

Record SessionData := mkSession {
  sessionid : string;
  username : option string;
  created_at : Q;
  last_used : Q;
  success_count : Z;
  failure_count : Z;
  is_active : bool
}.

(** The documents handled by [json.dumps] and [json.loads]; an object is
    the list of its items in insertion order. *)
Local Unset Elimination Schemes.
Inductive json :=
| JNull
| JBool (b : bool)
| JInt (z : Z)
| JFloat (q : Q)
| JStr (s : string)
| JArr (items : list json)
| JObj (fields : list (string * json)).
Local Set Elimination Schemes.

(** [SessionData.to_dict], that is [asdict(self)] *)
Definition to_dict (s : SessionData) : json :=
  JObj [("sessionid", JStr (sessionid s));
        ("username", match username s with Some u => JStr u | None => JNull end);
        ("created_at", JFloat (created_at s));
        ("last_used", JFloat (last_used s));
        ("success_count", JInt (success_count s));
        ("failure_count", JInt (failure_count s));
        ("is_active", JBool (is_active s))]%string.

(** [d.get(k)] on the items of an object *)
Fixpoint dict_get (k : string) (fields : list (string * json)) : option json :=
  match fields with
  | [] => None
  | (k', v) :: r => if String.eqb k' k then Some v else dict_get k r
  end.

(** Reading a document back into typed records has three results: a value,
    a Python exception, or a record with a field whose value is not of the
    dataclass's declared type, which the typed records cannot hold. *)
Inductive loaded (A : Type) := Value (a : A) | PyRaise | Untyped.
Arguments Value {A} a.
Arguments PyRaise {A}.
Arguments Untyped {A}.

Definition loaded_bind {A B} (x : loaded A) (f : A -> loaded B) : loaded B :=
  match x with
  | Value a => f a
  | PyRaise => PyRaise
  | Untyped => Untyped
  end.

Definition field_str (o : option json) : loaded string :=
  match o with Some (JStr s) => Value s | _ => Untyped end.

Definition field_opt_str (o : option json) : loaded (option string) :=
  match o with
  | Some (JStr s) => Value (Some s)
  | Some JNull | None => Value None
  | _ => Untyped
  end.

Definition field_float (dflt : Q) (o : option json) : loaded Q :=
  match o with
  | Some (JFloat q) => Value q
  | None => Value dflt
  | _ => Untyped
  end.

Definition field_int (dflt : Z) (o : option json) : loaded Z :=
  match o with
  | Some (JInt z) => Value z
  | None => Value dflt
  | _ => Untyped
  end.

Definition field_bool (dflt : bool) (o : option json) : loaded bool :=
  match o with
  | Some (JBool b) => Value b
  | None => Value dflt
  | _ => Untyped
  end.

(** [SessionData.from_dict]; [d.get] raises when [d] is not an object *)
Definition from_dict (d : json) : loaded SessionData :=
  match d with
  | JObj fields =>
      loaded_bind (field_str (dict_get "sessionid" fields)) (fun sid =>
      loaded_bind (field_opt_str (dict_get "username" fields)) (fun un =>
      loaded_bind (field_float 0.0 (dict_get "created_at" fields)) (fun ca =>
      loaded_bind (field_float 0.0 (dict_get "last_used" fields)) (fun lu =>
      loaded_bind (field_int 0 (dict_get "success_count" fields)) (fun sc =>
      loaded_bind (field_int 0 (dict_get "failure_count" fields)) (fun fc =>
      loaded_bind (field_bool true (dict_get "is_active" fields)) (fun ia =>
      Value (mkSession sid un ca lu sc fc ia))))))))
  | _ => PyRaise
  end.

(** [[SessionData.from_dict(s) for s in data]] on the items of an array:
    an item that raises ends the comprehension. *)
Fixpoint from_dicts (items : list json) : loaded (list SessionData) :=
  match items with
  | [] => Value []
  | d :: r =>
      match from_dict d, from_dicts r with
      | PyRaise, _ => PyRaise
      | Untyped, PyRaise => PyRaise
      | Untyped, _ => Untyped
      | Value s, rest => loaded_bind rest (fun ss => Value (s :: ss))
      end
  end.

(** the comprehension over any document: a non-empty object or string
    iterates over items without [get]; a scalar is not iterable *)
Definition sessions_of_data (data : json) : loaded (list SessionData) :=
  match data with
  | JArr items => from_dicts items
  | JObj [] | JStr EmptyString => Value []
  | _ => PyRaise
  end.

Record SessionManager := mkManager {
  sessions_file : string;
  sessions : list SessionData
}.

Inductive fernet_result (bytes : Type) :=
| NoFernet                     (* [return None] *)
| FernetOf (key : bytes)       (* [return Fernet(key)] *)
| FernetRaises.                (* [Fernet(key)] rejects the key *)
Arguments NoFernet {bytes}.
Arguments FernetOf {bytes} key.
Arguments FernetRaises {bytes}.

(** [for s in self.sessions: if s.sessionid == sessionid: ...; break] *)
Fixpoint update_first (f : SessionData -> SessionData) (sid : string)
         (l : list SessionData) : list SessionData :=
  match l with
  | [] => []
  | s :: r =>
      if String.eqb (sessionid s) sid then f s :: r
      else s :: update_first f sid r
  end.

Definition on_success (s : SessionData) : SessionData :=
  mkSession (sessionid s) (username s) (created_at s) (last_used s)
            (success_count s + 1) (Z.max 0 (failure_count s - 1)) true.

Definition on_failure (s : SessionData) : SessionData :=
  let failure_count' := (failure_count s + 1)%Z in
  mkSession (sessionid s) (username s) (created_at s) (last_used s)
            (success_count s) failure_count'
            (if (failure_count' >=? 5)%Z then false else is_active s).

Definition on_reactivate (s : SessionData) : SessionData :=
  mkSession (sessionid s) (username s) (created_at s) (last_used s)
            (success_count s) 0 true.

Definition touch (now : Q) (s : SessionData) : SessionData :=
  mkSession (sessionid s) (username s) (created_at s) now
            (success_count s) (failure_count s) (is_active s).

(** [(a.failure_count, a.last_used) < (b.failure_count, b.last_used)] *)
Definition key_ltb (a b : SessionData) : bool :=
  (failure_count a <? failure_count b)%Z
  || ((failure_count a =? failure_count b)%Z
      && negb (Qle_bool (last_used b) (last_used a))).

(** [list.sort(key=...)] is stable: an element goes after the elements
    placed before it that do not compare greater.  The pool positions
    travel with the sessions, since the sorted list holds the pool's own
    objects. *)
Fixpoint insert_sorted (x : nat * SessionData) (l : list (nat * SessionData))
  : list (nat * SessionData) :=
  match l with
  | [] => [x]
  | y :: r =>
      if key_ltb (snd y) (snd x) then y :: insert_sorted x r
      else x :: y :: r
  end.

Definition sort_by_key (l : list (nat * SessionData)) : list (nat * SessionData) :=
  List.fold_right insert_sorted [] l.

(** the pool's sessions with their positions *)
Fixpoint enumerate_from (i : nat) (l : list SessionData) : list (nat * SessionData) :=
  match l with
  | [] => []
  | s :: r => (i, s) :: enumerate_from (S i) r
  end.

Definition active_sessions (pool : list SessionData) : list (nat * SessionData) :=
  List.filter (fun p => is_active (snd p)) (enumerate_from 0 pool).

(** [get_session_stats] *)
Record SessionStats := mkSessionStats {
  total_sessions : nat;
  stats_active_sessions : nat;
  total_successes : Z;
  total_failures : Z;
  stats_sessions : list json
}.

Definition sum_Z (l : list Z) : Z := List.fold_right Z.add 0%Z l.

Definition get_session_stats (self : SessionManager) : SessionStats :=
  let active := List.length (List.filter is_active (sessions self)) in
  let total_success := sum_Z (List.map success_count (sessions self)) in
  let total_failures := sum_Z (List.map failure_count (sessions self)) in
  mkSessionStats (List.length (sessions self)) active total_success
                 total_failures (List.map to_dict (sessions self)).

(** A call of one of the manager's methods that change the pool. *)
Inductive call :=
| AddSession (sid : string) (un : option string)
| GetNextSession
| MarkSuccess (sid : string)
| MarkFailure (sid : string)
| Reactivate (sid : string).

(** the ids of a pool, in pool order *)
Definition ids (pool : list SessionData) : list string :=
  List.map sessionid pool.

(** *** Predicates on pools used in the statements *)

(** counters are not negative, and an inactive session has at least five
    failures on record *)
Definition well_formed (s : SessionData) : Prop :=
  (0 <= success_count s)%Z /\ (0 <= failure_count s)%Z
  /\ (is_active s = false -> (5 <= failure_count s)%Z).

(** the pool holds no session with this id *)
Definition absent (sid : string) (pool : list SessionData) : Prop :=
  forall s, In s pool -> sessionid s <> sid.

(** [s], at position [i], is the first session of the pool with this id *)
Definition first_with (sid : string) (pool : list SessionData)
           (i : nat) (s : SessionData) : Prop :=
  pool !! i = Some s /\ sessionid s = sid
  /\ forall j s', (j < i)%nat -> pool !! j = Some s' -> sessionid s' <> sid.

(** no element of the list compares below its head *)
Definition head_least (l : list (nat * SessionData)) : Prop :=
  match l with
  | [] => True
  | h :: _ => forall z, In z l -> key_ltb (snd z) (snd h) = false
  end.

(** The libraries the module calls, as the module sees them:
    [json.dumps(data, indent=2).encode("utf-8")] and
    [json.loads(raw.decode("utf-8"))] over file contents [bytes], and
    [cryptography.fernet.Fernet]; [Entropy] is what the system's random
    source and clock hand to [Fernet.generate_key] and [Fernet.encrypt].
    With them, the module-level configuration read from the environment
    at import. *)
Record Env := mkEnv {
  bytes : Type;
  json_dumps : json -> bytes;
  json_loads : bytes -> option json;
  Entropy : Type;
  generate_key : Entropy -> bytes;
  fernet_accepts : bytes -> bool;
  fernet_encrypt : Entropy -> bytes -> bytes -> bytes;
  fernet_decrypt : bytes -> bytes -> option bytes;
  KEY_FILE : string;
  USE_ENCRYPTION : bool
}.

Section Manager.

Variable env : Env.

(** the files of the working directory *)
Local Abbreviation files := (gmap string (bytes env)).

Definition _get_fernet (ent : Entropy env) (fs : files)
  : fernet_result (bytes env) * files :=
  if negb (USE_ENCRYPTION env) then (NoFernet, fs)
  else
    let '(key, fs) :=
      match fs !! KEY_FILE env with
      | None => let key := generate_key env ent in (key, <[KEY_FILE env := key]> fs)
      | Some key => (key, fs)
      end in
    if fernet_accepts env key then (FernetOf key, fs) else (FernetRaises, fs).

Definition tmp_path_of (file : string) : string := (file +:+ ".tmp")%string.

(** [os.replace(src, dst)] *)
Definition os_replace (src dst : string) (fs : files) : files :=
  match fs !! src with
  | Some content => <[dst := content]> (delete src fs)
  | None => fs
  end.

(** [_save_sessions_atomic]; an exception inside the [try] is logged and
    leaves what was written before it *)
Definition _save_sessions_atomic (self : SessionManager) (ent : Entropy env)
           (fs : files) : files :=
  let data := JArr (List.map to_dict (sessions self)) in
  let payload := json_dumps env data in
  match _get_fernet ent fs with
  | (FernetRaises, fs) => fs
  | (fernet, fs) =>
      let payload :=
        match fernet with
        | FernetOf key => fernet_encrypt env ent key payload
        | _ => payload
        end in
      let tmp_path := tmp_path_of (sessions_file self) in
      let fs := <[tmp_path := payload]> fs in
      os_replace tmp_path (sessions_file self) fs
  end.

(** [_load_sessions]: the pool it leaves in [self.sessions], or [None]
    when the file holds records the typed pool cannot represent *)
Definition _load_sessions (file : string) (ent : Entropy env) (fs : files)
  : option (list SessionData) * files :=
  match fs !! file with
  | None => (Some [], fs)
  | Some _ =>
      let '(fernet, fs) := _get_fernet ent fs in
      let pool :=
        match fernet with
        | FernetRaises => Some []
        | _ =>
            match fs !! file with
            | None => Some []
            | Some raw =>
                let raw :=
                  match fernet with
                  | FernetOf key => fernet_decrypt env key raw
                  | _ => Some raw
                  end in
                match raw with
                | None => Some []
                | Some raw =>
                    match json_loads env raw with
                    | None => Some []
                    | Some data =>
                        match sessions_of_data data with
                        | Value pool => Some pool
                        | PyRaise => Some []
                        | Untyped => None
                        end
                    end
                end
            end
        end in
      (pool, fs)
  end.

(** [SessionManager.__init__] *)
Definition init (file : string) (ent : Entropy env) (fs : files)
  : option SessionManager * files :=
  let '(pool, fs) := _load_sessions file ent fs in
  (option_map (mkManager file) pool, fs).

Definition with_sessions (self : SessionManager) (pool : list SessionData)
  : SessionManager :=
  mkManager (sessions_file self) pool.

(** [add_session]; [now] is the reading of [time.time()] *)
Definition add_session (self : SessionManager) (sid : string)
           (un : option string) (now : Q) (ent : Entropy env) (fs : files)
  : SessionManager * files :=
  if existsb (fun s => String.eqb (sessionid s) sid) (sessions self) then
    (self, fs)
  else
    let new_session := mkSession sid un now 0.0 0 0 true in
    let self := with_sessions self (sessions self ++ [new_session]) in
    (self, _save_sessions_atomic self ent fs).

(** [get_next_session]; the returned session is the pool's own object,
    read after its [last_used] was set *)
Definition get_next_session (self : SessionManager) (now : Q)
           (ent : Entropy env) (fs : files)
  : option SessionData * SessionManager * files :=
  match sort_by_key (active_sessions (sessions self)) with
  | [] => (None, self, fs)
  | (i, session) :: _ =>
      let session := touch now session in
      let self := with_sessions self (<[i := session]> (sessions self)) in
      (Some session, self, _save_sessions_atomic self ent fs)
  end.

Definition mark_session_success (self : SessionManager) (sid : string)
           (ent : Entropy env) (fs : files) : SessionManager * files :=
  let self := with_sessions self (update_first on_success sid (sessions self)) in
  (self, _save_sessions_atomic self ent fs).

Definition mark_session_failure (self : SessionManager) (sid : string)
           (ent : Entropy env) (fs : files) : SessionManager * files :=
  let self := with_sessions self (update_first on_failure sid (sessions self)) in
  (self, _save_sessions_atomic self ent fs).

Definition reactivate_session (self : SessionManager) (sid : string)
           (ent : Entropy env) (fs : files) : SessionManager * files :=
  let self := with_sessions self (update_first on_reactivate sid (sessions self)) in
  (self, _save_sessions_atomic self ent fs).

(** the files when [_save_sessions_atomic] has written the temporary file
    and not yet called [os.replace] *)
Definition save_before_replace (self : SessionManager) (ent : Entropy env)
           (fs : files) : files :=
  let data := JArr (List.map to_dict (sessions self)) in
  let payload := json_dumps env data in
  match _get_fernet ent fs with
  | (FernetRaises, fs) => fs
  | (fernet, fs) =>
      let payload :=
        match fernet with
        | FernetOf key => fernet_encrypt env ent key payload
        | _ => payload
        end in
      <[tmp_path_of (sessions_file self) := payload]> fs
  end.

(** the manager and the files after a call; [now] is the reading of
    [time.time()] *)
Definition perform (self : SessionManager) (c : call) (now : Q)
           (ent : Entropy env) (fs : files) : SessionManager * files :=
  match c with
  | AddSession sid un => add_session self sid un now ent fs
  | GetNextSession =>
      let '(_, self', fs') := get_next_session self now ent fs in (self', fs')
  | MarkSuccess sid => mark_session_success self sid ent fs
  | MarkFailure sid => mark_session_failure self sid ent fs
  | Reactivate sid => reactivate_session self sid ent fs
  end.

End Manager.

End Sessions.

(** ** Sample inputs

    Concrete actions, pools and a concrete instance of the library interface
    of [Sessions.Manager], on which the properties below are exercised. *)

Module Samples.
Import Sessions.

(** An action that always raises the same rate-limit error and counts its
    calls in the world. *)
Definition always_429 (w : nat) : Retry.result nat * nat :=
  (Retry.Err (Retry.mkError "429 Too Many Requests" (Some 429%Z) None), S w).

(** An action that fails on its first two calls and then returns the number
    of calls made before. *)
Definition flaky_twice (w : nat) : Retry.result nat * nat :=
  if (w <? 2)%nat
  then (Retry.Err (Retry.mkError "Connection reset by peer" None None), S w)
  else (Retry.Ok w, S w).

(** the longest sleep of a platform whose [time.sleep] counts nanoseconds in
    64 bits *)
Definition sleep_max_64 : Q := 9223372036.

(** File contents that stand for the document they encode; a ciphertext is
    the pair of the key and the plain content. *)
Definition plain_dumps (d : json) : json := d.
Definition plain_loads (raw : json) : option json := Some raw.
Definition sample_key (_ : unit) : json := JStr "c2FtcGxlLWtleQ==".
Definition any_key (_ : json) : bool := true.
Definition pair_encrypt (_ : unit) (key payload : json) : json :=
  JArr [key; payload].
Definition pair_decrypt (_ : json) (raw : json) : option json :=
  match raw with
  | JArr [_; payload] => Some payload
  | _ => None
  end.

(** the interface with these contents, with encryption on or off *)
Definition sample_env (encrypt : bool) : Env :=
  mkEnv json plain_dumps plain_loads unit sample_key any_key
        pair_encrypt pair_decrypt "session_key.key" encrypt.

(** the same with encryption on and a cipher that takes text keys only *)
Definition text_key (k : json) : bool :=
  match k with JStr _ => true | _ => false end.

Definition strict_env : Env :=
  mkEnv json plain_dumps plain_loads unit sample_key text_key
        pair_encrypt pair_decrypt "session_key.key" true.

Definition session_A : SessionData := mkSession "A" None 1.0 10.0 0 2 true.
Definition session_B : SessionData := mkSession "B" None 1.0 5.0 0 2 true.
Definition session_C : SessionData := mkSession "C" (Some "carol") 1.0 20.0 0 1 true.
Definition pool_ABC : list SessionData := [session_A; session_B; session_C].

(** a session that five failures have deactivated *)
Definition session_spent : SessionData := mkSession "D" None 1.0 3.0 0 5 false.

End Samples.

(** * Properties *)

(** ** AdaptiveRateLimiter *)

Module RateLimiterFacts.
Import RateLimiter.

Lemma Qgtb_true (x y : Q) : Qgtb x y = true <-> (y < x)%Q.
Proof.
  unfold Qgtb. rewrite negb_true_iff, <- not_true_iff_false, Qle_bool_iff.
  split; [apply Qnot_le_lt | apply Qlt_not_le].
Qed.

Lemma Qgtb_false (x y : Q) : Qgtb x y = false <-> (x <= y)%Q.
Proof. unfold Qgtb. rewrite negb_false_iff. apply Qle_bool_iff. Qed.

(** With a non-empty history both computations of the rate agree on the
    quotient of successes by recorded outcomes. *)
Lemma rate_or_quotient (dflt : Q) (self : AdaptiveRateLimiter) :
  (0 < success_count self + failure_count self)%Z ->
  rate_or dflt self
  = (inject_Z (success_count self)
     / inject_Z (success_count self + failure_count self))%Q.
Proof.
  intros Hpos. unfold rate_or.
  destruct (Z.gtb_spec (success_count self + failure_count self) 0); [reflexivity | lia].
Qed.

(** C1, at a limiter that has recorded nothing: [get_stats] reports the
    success rate [0.0], where the claim asks for [1.0]; the rate computed
    by [_calculate_delay] from the same counters is [1.0]. *)
Theorem get_stats_fresh_rate (s : RateLimitStrategy) :
  st_success_rate (get_stats (init s)) = 0.0%Q
  /\ ~ (st_success_rate (get_stats (init s)) == 1.0)%Q
  /\ delay_success_rate (init s) = 1.0%Q.
Proof. repeat split. intros H. discriminate H. Qed.

(** C5: on the adaptive strategy without consecutive failures, nine
    successes and one failure give the rate 0.9 and the multiplier 1.0;
    a rate above 0.9 gives 0.8, a rate of at most 0.7 gives 1.5, and the
    rates in between give 1.0. *)
Theorem adaptive_multiplier_tiers (self : AdaptiveRateLimiter) :
  strategy self = ADAPTIVE ->
  consecutive_failures self = 0%Z ->
  (success_count self = 9%Z -> failure_count self = 1%Z ->
     (delay_success_rate self == 0.9)%Q /\ (delay_multiplier self == 1.0)%Q)
  /\ ((0.9 < delay_success_rate self)%Q -> (delay_multiplier self == 0.8)%Q)
  /\ ((0.7 < delay_success_rate self)%Q -> (delay_success_rate self <= 0.9)%Q ->
      (delay_multiplier self == 1.0)%Q)
  /\ ((delay_success_rate self <= 0.7)%Q -> (delay_multiplier self == 1.5)%Q).
Proof.
  intros Hs Hc. unfold delay_multiplier. rewrite Hs, Hc. cbn [strategy_eqb Z.gtb Z.compare].
  split; [| split; [| split]].
  - intros H9 H1. unfold delay_success_rate, rate_or. rewrite H9, H1.
    split; reflexivity.
  - intros Hhi. apply Qgtb_true in Hhi. rewrite Hhi. reflexivity.
  - intros Hlo Hhi. apply Qgtb_true in Hlo. apply Qgtb_false in Hhi.
    rewrite Hhi, Hlo. reflexivity.
  - intros Hlo.
    assert (Hhi : (delay_success_rate self <= 0.9)%Q).
    { eapply Qle_trans; [exact Hlo | discriminate]. }
    apply Qgtb_false in Hlo. apply Qgtb_false in Hhi.
    rewrite Hhi, Hlo. reflexivity.
Qed.

Lemma adaptive_multiplier_tiers_witness :
  (delay_success_rate (mkLimiter ADAPTIVE 9 1 0 0) == 0.9)%Q
  /\ (delay_multiplier (mkLimiter ADAPTIVE 9 1 0 0) == 1.0)%Q.
Proof.
  destruct (adaptive_multiplier_tiers (mkLimiter ADAPTIVE 9 1 0 0) eq_refl eq_refl)
    as [H _].
  apply H; reflexivity.
Defined.

End RateLimiterFacts.

(** ** RequestThrottler *)

Module ThrottlerFacts.
Import Throttler.

Lemma can_make_request_admit (self : RequestThrottler) (now : Q) :
  (_last_ts self + _interval self <= now)%Q ->
  can_make_request self now
  = (0.0%Q, mkThrottler (requests_per_minute self) (_interval self) now).
Proof.
  intros H. unfold can_make_request.
  apply Qle_bool_iff in H. rewrite H. reflexivity.
Qed.

Lemma can_make_request_refuse (self : RequestThrottler) (now : Q) :
  (now < _last_ts self + _interval self)%Q ->
  can_make_request self now = ((_last_ts self + _interval self - now)%Q, self).
Proof.
  intros H. unfold can_make_request.
  destruct (Qle_bool (_last_ts self + _interval self) now) eqn:E; [| reflexivity].
  apply Qle_bool_iff in E. exfalso. exact (Qlt_not_le _ _ H E).
Qed.

Lemma can_make_request_interval (self : RequestThrottler) (now : Q) :
  _interval (snd (can_make_request self now)) = _interval self.
Proof.
  unfold can_make_request.
  destruct (Qle_bool (_last_ts self + _interval self) now); reflexivity.
Qed.

(** The two outcomes of one call, with the decision read off the result. *)
Lemma can_make_request_cases (self : RequestThrottler) (now : Q) :
  ((_last_ts self + _interval self <= now)%Q
   /\ Qeq_bool (fst (can_make_request self now)) 0 = true
   /\ can_make_request self now
      = (0.0%Q, mkThrottler (requests_per_minute self) (_interval self) now))
  \/ ((now < _last_ts self + _interval self)%Q
      /\ Qeq_bool (fst (can_make_request self now)) 0 = false
      /\ can_make_request self now
         = ((_last_ts self + _interval self - now)%Q, self)).
Proof.
  destruct (Qlt_le_dec now (_last_ts self + _interval self)) as [Hlt | Hle].
  - right. split; [exact Hlt |].
    rewrite (can_make_request_refuse _ _ Hlt). split; [| reflexivity].
    cbn [fst]. apply not_true_iff_false. intros E. apply Qeq_bool_iff in E.
    lra.
  - left. split; [exact Hle |].
    rewrite (can_make_request_admit _ _ Hle). split; reflexivity.
Qed.

(** Every admission of a run comes at least one interval after the last
    admission before the run. *)
Lemma admissions_after_last (clock : list Q) :
  forall self : RequestThrottler,
    (0 <= _interval self)%Q ->
    Forall (fun t => (_last_ts self + _interval self <= t)%Q)
           (admissions self clock).
Proof.
  induction clock as [| now rest IH]; intros self Hpos; cbn [admissions].
  - constructor.
  - destruct (can_make_request_cases self now) as [(Hle & Hz & E) | (Hlt & Hz & E)];
      rewrite E in *; cbn [fst] in Hz; rewrite Hz.
    + constructor; [exact Hle |].
      specialize (IH (mkThrottler (requests_per_minute self) (_interval self) now) Hpos).
      cbn [_last_ts _interval] in IH.
      eapply Stdlib.Lists.List.Forall_impl; [| exact IH].
      intros t Ht. cbn beta in Ht.
      apply Qle_trans with now; [exact Hle |].
      apply Qle_trans with (now + _interval self)%Q; [| exact Ht].
      rewrite <- (Qplus_0_r now) at 1. apply Qplus_le_r. exact Hpos.
    + apply IH. exact Hpos.
Qed.

(** Any two admissions of a run are at least one interval apart. *)
Lemma admissions_spaced (clock : list Q) :
  forall self : RequestThrottler,
    (0 <= _interval self)%Q ->
    StronglySorted (fun t1 t2 => (t1 + _interval self <= t2)%Q)
                   (admissions self clock).
Proof.
  induction clock as [| now rest IH]; intros self Hpos; cbn [admissions].
  - constructor.
  - destruct (can_make_request_cases self now) as [(Hle & Hz & E) | (Hlt & Hz & E)];
      rewrite E in *; cbn [fst] in Hz; rewrite Hz.
    + constructor.
      * exact (IH (mkThrottler (requests_per_minute self) (_interval self) now) Hpos).
      * exact (admissions_after_last rest
                 (mkThrottler (requests_per_minute self) (_interval self) now) Hpos).
    + apply IH. exact Hpos.
Qed.

(** C6: a call returns zero exactly when [now] has reached the last
    admission plus the interval, the boundary included, where it returns
    [0.0] and moves the last admission to [now]; otherwise the state is
    kept.  At 30 requests per minute the interval is 2.0 seconds, and in
    any run of calls, whatever the clock readings, two admissions are at
    least 2.0 seconds apart. *)
Theorem single_slot_gate :
  (forall (self : RequestThrottler) (now : Q),
      ((fst (can_make_request self now) == 0)%Q
       <-> (_last_ts self + _interval self <= now)%Q)
      /\ ((_last_ts self + _interval self <= now)%Q ->
          fst (can_make_request self now) = 0.0%Q
          /\ _last_ts (snd (can_make_request self now)) = now)
      /\ (~ (_last_ts self + _interval self <= now)%Q ->
          snd (can_make_request self now) = self))
  /\ (forall self : RequestThrottler,
         fst (can_make_request self (_last_ts self + _interval self)) = 0.0%Q)
  /\ (_interval (init 30) == 2.0)%Q
  /\ (forall (last : Q) (clock : list Q),
         StronglySorted (fun t1 t2 => (t1 + 2.0 <= t2)%Q)
           (admissions (mkThrottler 30 (_interval (init 30)) last) clock)).
Proof.
  split; [| split; [| split]].
  - intros self now.
    destruct (can_make_request_cases self now) as [(Hle & Hz & E) | (Hlt & Hz & E)].
    + split; [| split].
      * split; [intros _; exact Hle | intros _; apply Qeq_bool_iff; exact Hz].
      * intros _. rewrite E. split; reflexivity.
      * intros Hn. contradiction.
    + split; [| split].
      * split.
        -- intros Hq. apply Qeq_bool_iff in Hq. congruence.
        -- intros Hle. exfalso. exact (Qlt_not_le _ _ Hlt Hle).
      * intros Hle. exfalso. exact (Qlt_not_le _ _ Hlt Hle).
      * intros _. rewrite E. reflexivity.
  - intros self. rewrite can_make_request_admit; [reflexivity | apply Qle_refl].
  - reflexivity.
  - intros last clock.
    pose proof (admissions_spaced clock (mkThrottler 30 (_interval (init 30)) last)) as H.
    cbn [_interval] in H.
    eapply StronglySorted_ind with (P := fun l => StronglySorted _ l);
      [constructor | | apply H; discriminate].
    intros a l Hl IHl Hall. constructor; [exact IHl |].
    eapply Stdlib.Lists.List.Forall_impl; [| exact Hall].
    intros t Ht. cbn beta in Ht. cbn [init _interval] in Ht.
    eapply Qle_trans; [| exact Ht]. apply Qplus_le_r. discriminate.
Qed.

Lemma single_slot_gate_witness :
  fst (can_make_request (mkThrottler 30 2.0 10.0) 12.0) = 0.0%Q
  /\ _last_ts (snd (can_make_request (mkThrottler 30 2.0 10.0) 12.0)) = 12.0%Q
  /\ snd (can_make_request (mkThrottler 30 2.0 10.0) 11.9)
     = mkThrottler 30 2.0 10.0.
Proof.
  destruct single_slot_gate as [H _].
  destruct (H (mkThrottler 30 2.0 10.0) 12.0%Q) as (_ & Ha & _).
  destruct (H (mkThrottler 30 2.0 10.0) 11.9%Q) as (_ & _ & Hr).
  split; [apply Ha; discriminate | split; [apply Ha; discriminate |]].
  apply Hr. intros Hle. apply Hle. reflexivity.
Defined.

End ThrottlerFacts.

(** ** intelligent_retry *)

Module RetryFacts.
Import Retry.

Example rate_limit_by_status :
  is_rate_limit (mkError "Server said no" (Some 429%Z) None) = true.
Proof. reflexivity. Qed.

Example rate_limit_by_response_status :
  is_rate_limit (mkError "HTTPError" None (Some 429%Z)) = true.
Proof. reflexivity. Qed.

Example rate_limit_by_message :
  is_rate_limit (mkError "Please wait: Too Many Requests" None None) = true.
Proof. reflexivity. Qed.

Example generic_error :
  is_rate_limit (mkError "Connection reset by peer" (Some 500%Z) None) = false.
Proof. reflexivity. Qed.

(** An error is rate-limit-class exactly when its status code is 429 or
    its lowered message contains one of the vocabulary's phrases. *)
Lemma is_rate_limit_spec (e : PyError) :
  is_rate_limit e = true
  <-> py_or (err_status_code e) (err_response_status e) = Some 429%Z
      \/ exists p, In p rate_limit_vocabulary
                   /\ contains p (lower (err_str e)) = true.
Proof.
  unfold is_rate_limit. rewrite orb_true_iff, existsb_exists.
  split; (intros [Hs | Hm]; [left | right; exact Hm]).
  - destruct (py_or _ _) as [z |]; [| discriminate].
    apply Z.eqb_eq in Hs. congruence.
  - rewrite Hs. reflexivity.
Qed.

Lemma pow2_pos (n : Z) : (0 <= inject_Z (2 ^ n))%Q.
Proof.
  change 0%Q with (inject_Z 0). rewrite <- Zle_Qle. apply Z.pow_nonneg. lia.
Qed.

Lemma multiplier_at_least_one (b : bool) (attempt : Z) :
  (0 <= attempt)%Z -> (1 <= backoff_multiplier b attempt)%Q.
Proof.
  intros Ha. assert (H : (0 <= inject_Z attempt)%Q).
  { change 0%Q with (inject_Z 0). rewrite <- Zle_Qle. exact Ha. }
  unfold backoff_multiplier. destruct b; lra.
Qed.

(** the range of a wait for delays that are not negative *)
Lemma backoff_wait_range (base_delay max_delay : Q) (e : PyError)
      (attempt : Z) (u : Q) :
  (0 <= base_delay)%Q -> (0 <= max_delay)%Q -> (0 <= attempt)%Z ->
  (0 <= u)%Q -> (u <= 1)%Q ->
  (0 <= backoff_wait base_delay max_delay e attempt u)%Q
  /\ (backoff_wait base_delay max_delay e attempt u <= max_delay + 1.5)%Q.
Proof.
  intros Hb Hm Ha H0 H1. unfold backoff_wait.
  pose proof (pow2_pos (attempt - 1)) as Hp.
  pose proof (multiplier_at_least_one (is_rate_limit e) attempt Ha) as Hmul.
  assert (Hprod : (0 <= base_delay * inject_Z (2 ^ (attempt - 1))
                        * backoff_multiplier (is_rate_limit e) attempt)%Q).
  { apply Qmult_le_0_compat; [apply Qmult_le_0_compat; assumption | lra]. }
  pose proof (Q.le_min_l max_delay
                (base_delay * inject_Z (2 ^ (attempt - 1))
                 * backoff_multiplier (is_rate_limit e) attempt)) as Hle.
  assert (Hmin : (0 <= Qmin max_delay
                          (base_delay * inject_Z (2 ^ (attempt - 1))
                           * backoff_multiplier (is_rate_limit e) attempt))%Q).
  { apply Q.min_glb; assumption. }
  split; lra.
Qed.

Lemma time_sleep_accepts (sleep_max wait : Q) :
  (0 <= wait)%Q -> (wait <= sleep_max)%Q -> time_sleep sleep_max wait = None.
Proof.
  intros H0 H1. unfold time_sleep.
  apply Qle_bool_iff in H0. apply Qle_bool_iff in H1. rewrite H0, H1. reflexivity.
Qed.

Lemma prefix_append (n post : string) : String.prefix n (n +:+ post) = true.
Proof.
  induction n as [| c n IH]; [destruct post; reflexivity |].
  change (String c n +:+ post) with (String c (n +:+ post)).
  cbn [String.prefix].
  destruct (Ascii.ascii_dec c c) as [_ | Hne]; [exact IH | congruence].
Qed.


Lemma contains_append (n pre post : string) :
  contains n (pre +:+ (n +:+ post)) = true.
Proof.
  induction pre as [| c pre IH].
  - change (EmptyString +:+ (n +:+ post)) with (n +:+ post).
    destruct (n +:+ post) eqn:E; cbn [contains]; rewrite <- E, prefix_append;
      reflexivity.
  - change (String c pre +:+ (n +:+ post)) with (String c (pre +:+ (n +:+ post))).
    cbn [contains]. rewrite IH.
    destruct (String.prefix n (String c (pre +:+ (n +:+ post)))); reflexivity.
Qed.



Section WrapperFacts.

Variables W V : Type.
Variables (max_retries : Z) (base_delay max_delay : Q).
Variable func : W -> result V * W.
Variable rnd : Z -> Q.
Variable func_has_name : bool.
Variable sleep_max : Q.

Local Abbreviation loop :=
  (wrapper_loop max_retries base_delay max_delay func rnd func_has_name sleep_max).

(** The loop returns: fuel above the number of attempts left is enough. *)
Lemma wrapper_loop_total (fuel : nat) :
  forall (attempt : Z) (w : W),
    (Z.to_nat (max_retries - attempt) < fuel)%nat ->
    exists r, loop fuel attempt w = Some r.
Proof.
  induction fuel as [| fuel IH]; intros attempt w Hfuel; [lia |].
  cbn [wrapper_loop].
  destruct (Z.ltb_spec attempt max_retries) as [Hlt | Hge]; [| eauto].
  destruct (func w) as [[v | e] w']; [eauto |].
  destruct (pow_overflows (attempt + 1)); [eauto |].
  destruct (time_sleep sleep_max _); [eauto |].
  destruct (Z.geb_spec (attempt + 1) max_retries) as [Hlast | Hmore];
    [destruct func_has_name; eauto |].
  destruct (IH (attempt + 1)%Z w') as [[[o w''] tr] E]; [lia |].
  rewrite E. eauto.
Qed.

Lemma wrapper_total (w : W) :
  exists r,
    wrapper max_retries base_delay max_delay func rnd func_has_name sleep_max w
    = Some r.
Proof. apply wrapper_loop_total. rewrite Z.sub_0_r. lia. Qed.

(** a wait of an attempt up to 1024 that [time.sleep] accepts *)
Lemma handler_sleeps (e : PyError) (attempt : Z) :
  (0 <= base_delay)%Q -> (0 <= max_delay)%Q -> (max_delay + 1.5 <= sleep_max)%Q ->
  (forall k, (0 <= rnd k)%Q /\ (rnd k < 1)%Q) ->
  (1 <= attempt <= 1024)%Z ->
  pow_overflows attempt = false
  /\ time_sleep sleep_max
       (backoff_wait base_delay max_delay e attempt (rnd attempt)) = None.
Proof.
  intros Hb Hm Hs Hrnd Ha. split.
  - unfold pow_overflows. apply Z.leb_gt. lia.
  - destruct (Hrnd attempt) as [H0 H1].
    destruct (backoff_wait_range base_delay max_delay e attempt (rnd attempt))
      as [Hlo Hhi]; [assumption | assumption | lia | assumption | lra |].
    apply time_sleep_accepts; lra.
Qed.

(** When every call fails, the loop calls the action once per attempt
    left and re-raises the error of the last call. *)
Lemma wrapper_loop_all_fail (k : nat) :
  (forall w, exists e w', func w = (Err e, w')) ->
  (0 <= base_delay)%Q -> (0 <= max_delay)%Q -> (max_delay + 1.5 <= sleep_max)%Q ->
  (forall j, (0 <= rnd j)%Q /\ (rnd j < 1)%Q) ->
  func_has_name = true ->
  (max_retries <= 1024)%Z ->
  forall (fuel : nat) (attempt : Z) (w : W),
    (0 <= attempt)%Z ->
    (max_retries - attempt = Z.of_nat (S k))%Z ->
    (S k < fuel)%nat ->
    exists e w' tr,
      loop fuel attempt w = Some (Raises (Reraised e), w', tr)
      /\ calls tr = S k
      /\ List.length (sleeps tr) = S k
      /\ nth_error_of func k w = Some (e, w').
Proof.
  intros Hfail Hb Hm Hs Hrnd Hname Hmax.
  induction k as [| k IH]; intros fuel attempt w H0 Hleft Hfuel;
    (destruct fuel as [| fuel]; [lia |]); cbn [wrapper_loop nth_error_of];
    (destruct (Z.ltb_spec attempt max_retries) as [_ | Hge]; [| lia]);
    destruct (Hfail w) as (e & w' & E); rewrite E;
    (destruct (handler_sleeps e (attempt + 1)%Z Hb Hm Hs Hrnd) as [Hp Hsl]; [lia |]);
    rewrite Hp, Hsl.
  - destruct (Z.geb_spec (attempt + 1) max_retries) as [_ | Hmore]; [| lia].
    rewrite Hname. exists e, w'. eexists. repeat split.
  - destruct (Z.geb_spec (attempt + 1) max_retries) as [Hlast | _]; [lia |].
    destruct (IH fuel (attempt + 1)%Z w') as (e' & w'' & tr & El & Hc & Hl & Hn);
      [lia | lia | lia |].
    rewrite El. exists e', w''. eexists. split; [reflexivity |].
    split; [| split; [| exact Hn]].
    + cbn. unfold calls in Hc. rewrite Hc. reflexivity.
    + cbn. rewrite Hl. reflexivity.
Qed.


End WrapperFacts.

(** C3, as stated, fails on an action that always raises the same error.
    With a policy of three retries the wrapper calls it three times and what
    leaves the wrapper is that error itself, re-raised, not an exception of
    a class [RetryExhausted] wrapping it.  With a negative base delay
    [time.sleep] refuses the first wait, and the wrapper raises after a
    single call. *)
Lemma exhaustion_reraises_own_error :
  (exists tr,
      wrapper 3 2.0 60.0 Samples.always_429 (fun _ => 0.5%Q) true
              Samples.sleep_max_64 0%nat
      = Some (Raises (Reraised (mkError "429 Too Many Requests" (Some 429%Z) None)),
              3%nat, tr)
      /\ calls tr = 3%nat)
  /\ (forall cause w' tr,
         wrapper 3 2.0 60.0 Samples.always_429 (fun _ => 0.5%Q) true
                 Samples.sleep_max_64 0%nat
         <> Some (Raises (RetryExhausted cause), w', tr))
  /\ (exists tr,
         wrapper 3 (-2.0) 60.0 Samples.always_429 (fun _ => 0.5%Q) true
                 Samples.sleep_max_64 0%nat
         = Some (Raises ValueError_sleep, 1%nat, tr)
         /\ calls tr = 1%nat).
Proof.
  split; [| split].
  - eexists. split; reflexivity.
  - intros cause w' tr H. vm_compute in H. discriminate H.
  - eexists. split; reflexivity.
Qed.

(** C3, amended: for an action with a [__name__] that fails at every call,
    with [max_retries = 3] and delays that are not negative and that
    [time.sleep] accepts, the wrapper returns control by raising; it has
    called the action exactly three times, sleeping after each call, and
    what it raises is the error of the third call itself, re-raised by the
    handler's bare [raise]. *)
Theorem retry_exhausted_after_three
        (W V : Type) (base_delay max_delay : Q)
        (func : W -> result V * W) (rnd : Z -> Q) (sleep_max : Q) (w : W) :
  (forall w0, exists e w', func w0 = (Err e, w')) ->
  (0 <= base_delay)%Q -> (0 <= max_delay)%Q -> (max_delay + 1.5 <= sleep_max)%Q ->
  (forall k, (0 <= rnd k)%Q /\ (rnd k < 1)%Q) ->
  exists e w' tr,
    wrapper 3 base_delay max_delay func rnd true sleep_max w
    = Some (Raises (Reraised e), w', tr)
    /\ calls tr = 3%nat
    /\ List.length (sleeps tr) = 3%nat
    /\ nth_error_of func 2 w = Some (e, w').
Proof.
  intros Hfail Hb Hm Hs Hrnd. unfold wrapper.
  apply (wrapper_loop_all_fail W V 3 base_delay max_delay func rnd true sleep_max 2
           Hfail Hb Hm Hs Hrnd eq_refl);
    [lia | lia | reflexivity | cbn; lia].
Qed.

Lemma retry_exhausted_after_three_witness :
  exists e w' tr,
    wrapper 3 2.0 60.0 Samples.always_429 (fun _ => 0.5%Q) true
            Samples.sleep_max_64 0%nat
    = Some (Raises (Reraised e), w', tr)
    /\ calls tr = 3%nat
    /\ List.length (sleeps tr) = 3%nat
    /\ nth_error_of Samples.always_429 2 0%nat = Some (e, w').
Proof.
  apply (retry_exhausted_after_three nat nat 2.0 60.0 Samples.always_429
           (fun _ => 0.5%Q) Samples.sleep_max_64 0%nat).
  - intros w0. unfold Samples.always_429. eauto.
  - discriminate.
  - discriminate.
  - discriminate.
  - intros k. split; [discriminate | reflexivity].
Defined.

(** C7, at the 1025th failed attempt: with a policy of 1100 retries and an
    action that always fails, the handler of attempt 1025 raises
    [OverflowError] while it computes [base_delay * 2 ** (attempt - 1)],
    before the cap [min(max_delay, ...)] applies.  The run ends there, after
    1025 calls and 1024 sleeps, with no wait for that attempt, where the
    claim gives it the wait [max_delay] plus jitter. *)
Lemma no_wait_at_attempt_1025 :
  match wrapper 1100 2.0 60.0 Samples.always_429 (fun _ => 0.5%Q) true
                Samples.sleep_max_64 0%nat with
  | Some (Raises OverflowError_float, _, tr) =>
      calls tr = 1025%nat /\ List.length (sleeps tr) = 1024%nat
  | _ => False
  end.
Proof. vm_compute. split; reflexivity. Qed.



(** C9: with [max_retries <= 0] the loop body is never entered: the
    wrapper makes no call of the action, sleeps at no point, raises
    nothing and returns [None]. *)
Theorem no_attempt_returns_none
        (W V : Type) (max_retries : Z) (base_delay max_delay : Q)
        (func : W -> result V * W) (rnd : Z -> Q)
        (func_has_name : bool) (sleep_max : Q) (w : W) :
  (max_retries <= 0)%Z ->
  wrapper max_retries base_delay max_delay func rnd func_has_name sleep_max w
  = Some (ReturnsNone, w, []).
Proof.
  intros Hle. unfold wrapper. cbn [wrapper_loop].
  destruct (Z.ltb_spec 0 max_retries) as [Hlt | _]; [lia | reflexivity].
Qed.

Lemma no_attempt_returns_none_witness :
  wrapper 0 2.0 60.0 Samples.always_429 (fun _ => 0.5%Q) true
          Samples.sleep_max_64 7%nat
  = Some (ReturnsNone, 7%nat, []).
Proof.
  apply (no_attempt_returns_none nat nat 0 2.0 60.0 Samples.always_429
           (fun _ => 0.5%Q) true Samples.sleep_max_64 7%nat).
  lia.
Defined.

End RetryFacts.

(** ** SessionManager: pool updates and rotation *)

Module PoolFacts.
Import Sessions.

Lemma update_first_absent (f : SessionData -> SessionData) (sid : string)
      (pool : list SessionData) :
  absent sid pool -> update_first f sid pool = pool.
Proof.
  induction pool as [| s r IH]; intros Habs; cbn [update_first]; [reflexivity |].
  destruct (String.eqb_spec (sessionid s) sid) as [E | _].
  - exfalso. apply (Habs s); [left; reflexivity | exact E].
  - f_equal. apply IH. intros s' Hin. apply Habs. right. exact Hin.
Qed.

Lemma update_first_found (f : SessionData -> SessionData) (sid : string)
      (pool : list SessionData) :
  forall (i : nat) (s : SessionData),
    first_with sid pool i s ->
    update_first f sid pool = <[i := f s]> pool.
Proof.
  induction pool as [| s0 r IH]; intros i s (Hi & Hsid & Hfirst).
  - destruct i; discriminate.
  - cbn [update_first]. destruct i as [| i].
    + cbn in Hi. inversion Hi; subst s0.
      rewrite <- Hsid, String.eqb_refl. reflexivity.
    + destruct (String.eqb_spec (sessionid s0) sid) as [E | _].
      * exfalso. apply (Hfirst 0%nat s0); [lia | reflexivity | exact E].
      * cbn. f_equal. apply IH. split; [exact Hi |]. split; [exact Hsid |].
        intros j s' Hj Hs'. apply (Hfirst (S j) s'); [lia | exact Hs'].
Qed.

(** The fifth failure deactivates a session; a success after it brings the
    count back to 4 and the session back into rotation. *)
Example fifth_failure_then_success :
  let s4 := mkSession "E" None 1.0 2.0 7 4 true in
  on_failure s4 = mkSession "E" None 1.0 2.0 7 5 false
  /\ on_success (on_failure s4) = mkSession "E" None 1.0 2.0 8 4 true.
Proof. split; reflexivity. Qed.

(** *** The order of the sort key *)

Lemma key_ltb_true (a b : SessionData) :
  key_ltb a b = true
  <-> (failure_count a < failure_count b)%Z
      \/ (failure_count a = failure_count b /\ (last_used a < last_used b)%Q).
Proof.
  unfold key_ltb.
  rewrite orb_true_iff, andb_true_iff, Z.ltb_lt, Z.eqb_eq, negb_true_iff,
    <- not_true_iff_false, Qle_bool_iff.
  split; (intros [H | [H1 H2]]; [left; exact H | right; split; [exact H1 |]]).
  - apply Qnot_le_lt. exact H2.
  - apply Qlt_not_le. exact H2.
Qed.

Lemma key_ltb_false (a b : SessionData) :
  key_ltb a b = false
  <-> (failure_count b < failure_count a)%Z
      \/ (failure_count b = failure_count a /\ (last_used b <= last_used a)%Q).
Proof.
  rewrite <- not_true_iff_false, key_ltb_true. split.
  - intros Hn.
    destruct (Z.lt_trichotomy (failure_count a) (failure_count b)) as [H | [H | H]].
    + exfalso. apply Hn. left. exact H.
    + right. split; [symmetry; exact H |].
      destruct (Qlt_le_dec (last_used a) (last_used b)) as [Hl | Hl]; [| exact Hl].
      exfalso. apply Hn. right. split; [exact H | exact Hl].
    + left. exact H.
  - intros [H | [H1 H2]] [H' | [H1' H2']]; try lia.
    exact (Qlt_not_le _ _ H2' H2).
Qed.

Lemma key_ltb_irrefl (a : SessionData) : key_ltb a a = false.
Proof. apply key_ltb_false. right. split; [reflexivity | apply Qle_refl]. Qed.

Lemma key_ltb_asym (a b : SessionData) :
  key_ltb a b = true -> key_ltb b a = false.
Proof.
  rewrite key_ltb_true, key_ltb_false. intros [H | [H1 H2]].
  - left. exact H.
  - right. split; [exact H1 | apply Qlt_le_weak; exact H2].
Qed.

Lemma key_ltb_false_trans (a b c : SessionData) :
  key_ltb a b = false -> key_ltb b c = false -> key_ltb a c = false.
Proof.
  rewrite !key_ltb_false. intros [H | [H1 H2]] [H' | [H1' H2']].
  - left. lia.
  - left. lia.
  - left. lia.
  - right. split; [lia | eapply Qle_trans; eassumption].
Qed.

(** *** The stable sort and its head *)

Lemma insert_sorted_In (x z : nat * SessionData) (l : list (nat * SessionData)) :
  In z (insert_sorted x l) <-> z = x \/ In z l.
Proof.
  induction l as [| y r IH]; cbn [insert_sorted].
  - cbn. intuition.
  - destruct (key_ltb (snd y) (snd x)); cbn [In]; [rewrite IH |]; intuition.
Qed.

Lemma sort_by_key_In (z : nat * SessionData) (l : list (nat * SessionData)) :
  In z (sort_by_key l) <-> In z l.
Proof.
  unfold sort_by_key. induction l as [| x r IH]; cbn [fold_right]; [reflexivity |].
  rewrite insert_sorted_In, IH. cbn [In]. intuition.
Qed.

Lemma insert_sorted_head_least (x : nat * SessionData)
      (l : list (nat * SessionData)) :
  head_least l -> head_least (insert_sorted x l).
Proof.
  destruct l as [| y r]; cbn [insert_sorted head_least].
  - intros _ z [<- | []]. apply key_ltb_irrefl.
  - intros Hy. destruct (key_ltb (snd y) (snd x)) eqn:E; cbn [head_least].
    + intros z [<- | Hz]; [apply key_ltb_irrefl |].
      apply insert_sorted_In in Hz. destruct Hz as [-> | Hz].
      * apply key_ltb_asym. exact E.
      * apply Hy. right. exact Hz.
    + intros z [<- | Hz]; [apply key_ltb_irrefl |].
      eapply key_ltb_false_trans; [apply Hy; exact Hz | exact E].
Qed.

Lemma sort_by_key_head_least (l : list (nat * SessionData)) :
  head_least (sort_by_key l).
Proof.
  unfold sort_by_key. induction l as [| x r IH]; cbn [fold_right]; [exact I |].
  apply insert_sorted_head_least. exact IH.
Qed.

Lemma enumerate_from_In (pool : list SessionData) :
  forall (k i : nat) (s : SessionData),
    In (i, s) (enumerate_from k pool)
    <-> (k <= i)%nat /\ pool !! (i - k)%nat = Some s.
Proof.
  induction pool as [| s0 r IH]; intros k i s; cbn [enumerate_from In].
  - split; [intros [] | intros [_ H]; discriminate].
  - rewrite IH. split.
    + intros [E | [Hk Hi]].
      * inversion E; subst. split; [lia |]. rewrite Nat.sub_diag. reflexivity.
      * split; [lia |]. replace (i - k)%nat with (S (i - S k)) by lia. exact Hi.
    + intros [Hk Hi]. destruct (Nat.eq_dec i k) as [-> | Hne].
      * left. rewrite Nat.sub_diag in Hi. cbn in Hi. congruence.
      * right. split; [lia |].
        replace (i - k)%nat with (S (i - S k)) in Hi by lia. exact Hi.
Qed.

Lemma active_sessions_In (pool : list SessionData) (i : nat) (s : SessionData) :
  In (i, s) (active_sessions pool)
  <-> pool !! i = Some s /\ is_active s = true.
Proof.
  unfold active_sessions. rewrite filter_In, enumerate_from_In, Nat.sub_0_r.
  cbn [snd]. intuition lia.
Qed.

End PoolFacts.

(** ** SessionManager: operations and persistence *)

Module ManagerFacts.
Import Sessions PoolFacts.

Lemma length_append (a b : string) :
  String.length (a +:+ b) = (String.length a + String.length b)%nat.
Proof. induction a as [| c a IH]; cbn; [reflexivity | rewrite <- IH; reflexivity]. Qed.

Lemma tmp_path_fresh (file : string) : tmp_path_of file <> file.
Proof.
  unfold tmp_path_of. intros E. apply (f_equal String.length) in E.
  rewrite length_append in E. cbn in E. lia.
Qed.

Lemma from_dict_to_dict (s : SessionData) : from_dict (to_dict s) = Value s.
Proof. destruct s as [sid [un |] ca lu sc fc ia]; reflexivity. Qed.

Lemma from_dicts_to_dict (pool : list SessionData) :
  from_dicts (List.map to_dict pool) = Value pool.
Proof.
  induction pool as [| s r IH]; [reflexivity |].
  cbn [List.map from_dicts]. rewrite from_dict_to_dict, IH. reflexivity.
Qed.

Lemma with_sessions_same (self : SessionManager) :
  with_sessions self (sessions self) = self.
Proof. destruct self; reflexivity. Qed.

Section WithEnv.

Variable env : Env.

(** what a completed save leaves on disk: the payload under the target
    name and nothing under the temporary name *)
Lemma replace_written (file : string) (payload : bytes env)
      (fs : gmap string (bytes env)) :
  os_replace env (tmp_path_of file) file (<[tmp_path_of file := payload]> fs)
  = <[file := payload]> (delete (tmp_path_of file) fs).
Proof.
  unfold os_replace. rewrite lookup_insert_eq, delete_insert_eq. reflexivity.
Qed.

Lemma save_plain (self : SessionManager) (ent : Entropy env)
      (fs : gmap string (bytes env)) :
  USE_ENCRYPTION env = false ->
  _save_sessions_atomic env self ent fs
  = <[sessions_file self := json_dumps env (JArr (List.map to_dict (sessions self)))]>
      (delete (tmp_path_of (sessions_file self)) fs).
Proof.
  intros Hoff. unfold _save_sessions_atomic, _get_fernet. rewrite Hoff.
  cbn [negb]. apply replace_written.
Qed.

(** with encryption on and usable keys, [_get_fernet] returns a cipher
    for the key that the key file holds afterwards *)
Lemma get_fernet_key (ent : Entropy env) (fs : gmap string (bytes env)) :
  USE_ENCRYPTION env = true ->
  (forall e, fernet_accepts env (generate_key env e) = true) ->
  (forall k, fs !! KEY_FILE env = Some k -> fernet_accepts env k = true) ->
  exists key fs',
    _get_fernet env ent fs = (FernetOf key, fs')
    /\ fs' !! KEY_FILE env = Some key
    /\ fernet_accepts env key = true
    /\ (forall path, path <> KEY_FILE env -> fs' !! path = fs !! path).
Proof.
  intros Hon Hgen Hkey. unfold _get_fernet. rewrite Hon. cbn [negb].
  destruct (fs !! KEY_FILE env) as [key |] eqn:E.
  - pose proof (Hkey key eq_refl) as Hacc. rewrite Hacc. exists key, fs.
    split; [reflexivity |]. split; [exact E |]. split; [exact Hacc |].
    intros path _. reflexivity.
  - rewrite Hgen.
    exists (generate_key env ent), (<[KEY_FILE env := generate_key env ent]> fs).
    split; [reflexivity |]. split; [apply lookup_insert_eq |].
    split; [apply Hgen |].
    intros path Hne. apply lookup_insert_ne. congruence.
Qed.

Lemma get_fernet_existing (ent : Entropy env) (fs : gmap string (bytes env))
      (key : bytes env) :
  USE_ENCRYPTION env = true ->
  fs !! KEY_FILE env = Some key ->
  fernet_accepts env key = true ->
  _get_fernet env ent fs = (FernetOf key, fs).
Proof.
  intros Hon Hk Hacc. unfold _get_fernet. rewrite Hon, Hk, Hacc. reflexivity.
Qed.

(** what a save puts under the sessions file's name with encryption on and
    a key that the cipher accepts *)
Lemma save_encrypted_file (self : SessionManager) (ent : Entropy env)
      (fs : gmap string (bytes env)) (key : bytes env) :
  USE_ENCRYPTION env = true ->
  fs !! KEY_FILE env = Some key ->
  fernet_accepts env key = true ->
  _save_sessions_atomic env self ent fs !! sessions_file self
  = Some (fernet_encrypt env ent key
            (json_dumps env (JArr (List.map to_dict (sessions self))))).
Proof.
  intros Hon Hk Hacc. unfold _save_sessions_atomic.
  rewrite (get_fernet_existing ent fs key Hon Hk Hacc), replace_written.
  apply lookup_insert_eq.
Qed.

(** loading a file that holds the payload of a pool, in the clear *)
Lemma load_plain (file : string) (pool : list SessionData)
      (ent : Entropy env) (fs : gmap string (bytes env)) :
  USE_ENCRYPTION env = false ->
  (forall d, json_loads env (json_dumps env d) = Some d) ->
  fs !! file = Some (json_dumps env (JArr (List.map to_dict pool))) ->
  _load_sessions env file ent fs = (Some pool, fs).
Proof.
  intros Hoff Hjson Hfile. unfold _load_sessions, _get_fernet.
  rewrite Hfile, Hoff. cbn [negb]. rewrite Hfile, Hjson.
  cbn [sessions_of_data]. rewrite from_dicts_to_dict. reflexivity.
Qed.

(** loading a file that holds the encrypted payload of a pool *)
Lemma load_encrypted (file : string) (pool : list SessionData)
      (ent e0 : Entropy env) (key : bytes env) (fs : gmap string (bytes env)) :
  USE_ENCRYPTION env = true ->
  (forall d, json_loads env (json_dumps env d) = Some d) ->
  fernet_decrypt env key
    (fernet_encrypt env e0 key (json_dumps env (JArr (List.map to_dict pool))))
  = Some (json_dumps env (JArr (List.map to_dict pool))) ->
  fs !! KEY_FILE env = Some key ->
  fernet_accepts env key = true ->
  fs !! file
  = Some (fernet_encrypt env e0 key (json_dumps env (JArr (List.map to_dict pool)))) ->
  _load_sessions env file ent fs = (Some pool, fs).
Proof.
  intros Hon Hjson Hdec Hk Hacc Hfile. unfold _load_sessions.
  rewrite Hfile, (get_fernet_existing ent fs key Hon Hk Hacc), Hfile, Hdec, Hjson.
  cbn [sessions_of_data]. rewrite from_dicts_to_dict. reflexivity.
Qed.

End WithEnv.

(** C8: when [json.loads] inverts [json.dumps] and, with encryption on,
    [Fernet.decrypt] inverts [Fernet.encrypt] under the key of the key
    file (a key file apart from the sessions file and holding, if it
    exists, a key that [Fernet] accepts), loading after a save gives back
    the saved pool, record for record; the save leaves no temporary
    file.  [USE_ENCRYPTION env] ranges over both settings. *)
Theorem save_load_roundtrip (env : Env) (self : SessionManager)
        (ent ent' : Entropy env) (fs : gmap string (bytes env)) :
  (forall d, json_loads env (json_dumps env d) = Some d) ->
  (USE_ENCRYPTION env = true ->
     (forall e k p, fernet_accepts env k = true ->
                    fernet_decrypt env k (fernet_encrypt env e k p) = Some p)
     /\ (forall e, fernet_accepts env (generate_key env e) = true)
     /\ (forall k, fs !! KEY_FILE env = Some k -> fernet_accepts env k = true)
     /\ KEY_FILE env <> sessions_file self
     /\ KEY_FILE env <> tmp_path_of (sessions_file self)) ->
  let fs' := _save_sessions_atomic env self ent fs in
  fst (_load_sessions env (sessions_file self) ent' fs') = Some (sessions self)
  /\ fst (init env (sessions_file self) ent' fs') = Some self
  /\ fs' !! tmp_path_of (sessions_file self) = None.
Proof.
  intros Hjson Henc fs'.
  assert (Hload : _load_sessions env (sessions_file self) ent' fs'
                  = (Some (sessions self), fs')
                  /\ fs' !! tmp_path_of (sessions_file self) = None).
  { subst fs'. destruct (USE_ENCRYPTION env) eqn:Hmode.
    - destruct (Henc eq_refl) as (Hdec & Hgen & Hkey & Hne1 & Hne2).
      destruct (get_fernet_key env ent fs Hmode Hgen Hkey)
        as (key & fs1 & Hget & Hk1 & Hacc & Hsame).
      unfold _save_sessions_atomic. rewrite Hget, replace_written. split.
      + eapply load_encrypted with (key := key) (e0 := ent);
          [exact Hmode | exact Hjson | apply Hdec; exact Hacc | | exact Hacc
           | apply lookup_insert_eq].
        rewrite lookup_insert_ne by congruence.
        rewrite lookup_delete_ne by congruence. exact Hk1.
      + rewrite lookup_insert_ne by (intros E; exact (tmp_path_fresh _ (eq_sym E))).
        apply lookup_delete_eq.
    - rewrite (save_plain env self ent fs Hmode). split.
      + apply load_plain; [exact Hmode | exact Hjson | apply lookup_insert_eq].
      + rewrite lookup_insert_ne by (intros E; exact (tmp_path_fresh _ (eq_sym E))).
        apply lookup_delete_eq. }
  destruct Hload as [Hload Htmp]. unfold init. rewrite Hload. cbn.
  repeat split; [| exact Htmp]. destruct self; reflexivity.
Qed.

Lemma save_load_roundtrip_witness :
  (let m := mkManager "sessions.json" Samples.pool_ABC in
   let fs' := _save_sessions_atomic (Samples.sample_env false) m tt ∅ in
   fst (_load_sessions (Samples.sample_env false) "sessions.json" tt fs')
   = Some Samples.pool_ABC
   /\ fst (init (Samples.sample_env false) "sessions.json" tt fs') = Some m
   /\ fs' !! tmp_path_of "sessions.json" = None)
  /\ (let m := mkManager "sessions.json" Samples.pool_ABC in
      let fs' := _save_sessions_atomic (Samples.sample_env true) m tt ∅ in
      fst (_load_sessions (Samples.sample_env true) "sessions.json" tt fs')
      = Some Samples.pool_ABC
      /\ fst (init (Samples.sample_env true) "sessions.json" tt fs') = Some m
      /\ fs' !! tmp_path_of "sessions.json" = None).
Proof.
  split.
  - apply (save_load_roundtrip (Samples.sample_env false)
             (mkManager "sessions.json" Samples.pool_ABC) tt tt ∅).
    + intros d. reflexivity.
    + intros Hon. discriminate Hon.
  - apply (save_load_roundtrip (Samples.sample_env true)
             (mkManager "sessions.json" Samples.pool_ABC) tt tt ∅).
    + intros d. reflexivity.
    + intros _. split; [| split; [| split; [| split]]].
      * intros e k p _. reflexivity.
      * intros e. reflexivity.
      * intros k _. reflexivity.
      * discriminate.
      * discriminate.
Defined.

(** C10: for an id that no session of the pool carries, [mark_session_success],
    [mark_session_failure] and [reactivate_session] leave the manager, and
    with it every record of the pool, as it was, and still save: the files
    they leave are those of a save of the unchanged manager, which with
    encryption off puts the serialised pool under the sessions file's
    name. *)
Theorem unknown_session_noop (env : Env) (self : SessionManager) (sid : string)
        (ent : Entropy env) (fs : gmap string (bytes env)) :
  absent sid (sessions self) ->
  mark_session_success env self sid ent fs
  = (self, _save_sessions_atomic env self ent fs)
  /\ mark_session_failure env self sid ent fs
     = (self, _save_sessions_atomic env self ent fs)
  /\ reactivate_session env self sid ent fs
     = (self, _save_sessions_atomic env self ent fs)
  /\ (USE_ENCRYPTION env = false ->
      _save_sessions_atomic env self ent fs !! sessions_file self
      = Some (json_dumps env (JArr (List.map to_dict (sessions self))))).
Proof.
  intros Habs.
  unfold mark_session_success, mark_session_failure, reactivate_session.
  rewrite !(update_first_absent _ sid (sessions self) Habs), with_sessions_same.
  repeat split.
  intros Hoff. rewrite (save_plain env self ent fs Hoff). apply lookup_insert_eq.
Qed.

Lemma unknown_session_noop_witness :
  let m := mkManager "sessions.json" Samples.pool_ABC in
  let env := Samples.sample_env false in
  mark_session_success env m "Z" tt ∅ = (m, _save_sessions_atomic env m tt ∅)
  /\ mark_session_failure env m "Z" tt ∅ = (m, _save_sessions_atomic env m tt ∅)
  /\ reactivate_session env m "Z" tt ∅ = (m, _save_sessions_atomic env m tt ∅)
  /\ (USE_ENCRYPTION env = false ->
      _save_sessions_atomic env m tt ∅ !! sessions_file m
      = Some (json_dumps env (JArr (List.map to_dict (sessions m))))).
Proof.
  apply (unknown_session_noop (Samples.sample_env false)
           (mkManager "sessions.json" Samples.pool_ABC) "Z" tt ∅).
  intros s Hin. cbn in Hin.
  destruct Hin as [<- | [<- | [<- | []]]]; discriminate.
Defined.

(** C2, as stated, fails on a pool whose only session has five failures
    and is inactive: after [mark_session_success] its failure count is 4
    and it is active again. *)
Lemma mark_success_on_spent_session :
  let m := mkManager "sessions.json" [Samples.session_spent] in
  failure_count Samples.session_spent = 5%Z
  /\ is_active Samples.session_spent = false
  /\ exists s',
      sessions (fst (mark_session_success (Samples.sample_env false) m "D" tt ∅))
      = [s']
      /\ failure_count s' = 4%Z
      /\ is_active s' <> false.
Proof.
  cbn zeta. split; [reflexivity |]. split; [reflexivity |].
  eexists. split; [reflexivity |]. split; [reflexivity | discriminate].
Qed.

(** C2, amended: for the first session of the pool with the given id,
    when it has five failures and is inactive, [mark_session_success]
    replaces it in place by the session with one more success, the failure
    count decremented (floored at 0, here 4) and [is_active] set to true;
    [reactivate_session] replaces it by the session with failure count 0
    and [is_active] true.  Both save the new pool. *)
Theorem mark_success_reactivates (env : Env) (self : SessionManager)
        (sid : string) (i : nat) (s : SessionData)
        (ent : Entropy env) (fs : gmap string (bytes env)) :
  first_with sid (sessions self) i s ->
  failure_count s = 5%Z ->
  is_active s = false ->
  (let self' := with_sessions self (<[i := on_success s]> (sessions self)) in
   mark_session_success env self sid ent fs
   = (self', _save_sessions_atomic env self' ent fs))
  /\ failure_count (on_success s) = Z.max 0 (failure_count s - 1)
  /\ failure_count (on_success s) = 4%Z
  /\ success_count (on_success s) = (success_count s + 1)%Z
  /\ is_active (on_success s) = true
  /\ (let self' := with_sessions self (<[i := on_reactivate s]> (sessions self)) in
      reactivate_session env self sid ent fs
      = (self', _save_sessions_atomic env self' ent fs))
  /\ failure_count (on_reactivate s) = 0%Z
  /\ is_active (on_reactivate s) = true.
Proof.
  intros Hfirst Hfc Hact.
  unfold mark_session_success, reactivate_session.
  rewrite !(update_first_found _ sid (sessions self) i s Hfirst).
  cbn [on_success on_reactivate failure_count success_count is_active].
  rewrite Hfc. repeat split.
Qed.

Lemma mark_success_reactivates_witness :
  let m := mkManager "sessions.json" [Samples.session_A; Samples.session_spent] in
  let env := Samples.sample_env false in
  let s := Samples.session_spent in
  (let self' := with_sessions m (<[1%nat := on_success s]> (sessions m)) in
   mark_session_success env m "D" tt ∅
   = (self', _save_sessions_atomic env self' tt ∅))
  /\ failure_count (on_success s) = Z.max 0 (failure_count s - 1)
  /\ failure_count (on_success s) = 4%Z
  /\ success_count (on_success s) = (success_count s + 1)%Z
  /\ is_active (on_success s) = true
  /\ (let self' := with_sessions m (<[1%nat := on_reactivate s]> (sessions m)) in
      reactivate_session env m "D" tt ∅
      = (self', _save_sessions_atomic env self' tt ∅))
  /\ failure_count (on_reactivate s) = 0%Z
  /\ is_active (on_reactivate s) = true.
Proof.
  apply (mark_success_reactivates (Samples.sample_env false)
           (mkManager "sessions.json" [Samples.session_A; Samples.session_spent])
           "D" 1%nat Samples.session_spent tt ∅).
  - split; [reflexivity |]. split; [reflexivity |].
    intros j s' Hj Hs'. destruct j as [| j]; [| lia].
    cbn in Hs'. inversion Hs'; subst s'. discriminate.
  - reflexivity.
  - reflexivity.
Defined.

(** C4: [get_next_session] returns no session exactly when no session of
    the pool is active, and then changes nothing, in memory or on disk.
    Otherwise it picks an active session of the pool that no active session
    precedes in the order (failure count ascending, then last use
    ascending), sets its [last_used] to the current time in the pool, saves
    the new pool and returns the session.  After the save the sessions file
    holds the serialised new pool: in the clear with encryption off,
    encrypted under the key of the key file with encryption on.  On the
    pool A (2 failures, last used at 10), B (2, 5), C (1, 20) it returns
    C. *)
Theorem get_next_session_rotation (env : Env) (self : SessionManager)
        (now : Q) (ent : Entropy env) (fs : gmap string (bytes env)) :
  (((forall s, In s (sessions self) -> is_active s = false)
    /\ get_next_session env self now ent fs = (None, self, fs))
   \/ (exists (i : nat) (s : SessionData),
        sessions self !! i = Some s
        /\ is_active s = true
        /\ (forall s', In s' (sessions self) -> is_active s' = true ->
              (failure_count s < failure_count s')%Z
              \/ (failure_count s = failure_count s'
                  /\ (last_used s <= last_used s')%Q))
        /\ let self' := with_sessions self (<[i := touch now s]> (sessions self)) in
           let payload := json_dumps env (JArr (List.map to_dict (sessions self'))) in
           get_next_session env self now ent fs
           = (Some (touch now s), self', _save_sessions_atomic env self' ent fs)
           /\ (USE_ENCRYPTION env = false ->
               _save_sessions_atomic env self' ent fs !! sessions_file self
               = Some payload)
           /\ (forall key,
                  USE_ENCRYPTION env = true ->
                  fs !! KEY_FILE env = Some key ->
                  fernet_accepts env key = true ->
                  _save_sessions_atomic env self' ent fs !! sessions_file self
                  = Some (fernet_encrypt env ent key payload))))
  /\ fst (fst (get_next_session env (mkManager "sessions.json" Samples.pool_ABC)
                 now ent fs))
     = Some (touch now Samples.session_C).
Proof.
  split; [| reflexivity].
  unfold get_next_session.
  pose proof (sort_by_key_head_least (active_sessions (sessions self))) as Hleast.
  pose proof (fun z => sort_by_key_In z (active_sessions (sessions self))) as Hin.
  destruct (sort_by_key (active_sessions (sessions self))) as [| [i s] rest].
  - left. split; [| reflexivity].
    intros s Hs. destruct (is_active s) eqn:Ha; [| reflexivity].
    apply In_nth_error in Hs. destruct Hs as [i Hi].
    exfalso. apply (proj2 (Hin (i, s))). apply active_sessions_In.
    split; [| exact Ha]. rewrite <- Hi. clear. revert i.
    induction (sessions self) as [| x l IH]; intros [| i]; cbn; auto.
  - right. exists i, s.
    assert (Hs : In (i, s) (active_sessions (sessions self))).
    { apply Hin. left. reflexivity. }
    apply active_sessions_In in Hs. destruct Hs as [Hi Ha].
    split; [exact Hi |]. split; [exact Ha |]. split.
    2: { cbn zeta. split; [reflexivity |]. split.
         - intros Hoff.
           rewrite (save_plain env
                      (with_sessions self (<[i := touch now s]> (sessions self)))
                      ent fs Hoff).
           apply lookup_insert_eq.
         - intros key Hon Hk Hacc.
           apply (save_encrypted_file env
                    (with_sessions self (<[i := touch now s]> (sessions self)))
                    ent fs key Hon Hk Hacc). }
    intros s' Hs' Ha'. apply In_nth_error in Hs'. destruct Hs' as [j Hj].
    assert (Hj' : sessions self !! j = Some s').
    { rewrite <- Hj. clear. revert j.
      induction (sessions self) as [| x l IH]; intros [| j]; cbn; auto. }
    assert (Hin' : In (j, s') (active_sessions (sessions self))).
    { apply active_sessions_In. split; assumption. }
    cbn [head_least] in Hleast.
    assert (Hlt : key_ltb s' s = false).
    { apply (Hleast (j, s')). apply Hin. exact Hin'. }
    apply key_ltb_false in Hlt. exact Hlt.
Qed.

Lemma get_next_session_rotation_witness :
  fst (fst (get_next_session (Samples.sample_env false)
              (mkManager "sessions.json" Samples.pool_ABC) 30.0 tt ∅))
  = Some (mkSession "C" (Some "carol") 1.0 30.0 0 1 true).
Proof.
  exact (proj2 (get_next_session_rotation (Samples.sample_env false)
                  (mkManager "sessions.json" Samples.pool_ABC) 30.0%Q tt ∅)).
Defined.

End ManagerFacts.

(** * Further properties *)

(** ** AdaptiveRateLimiter: delays and counters *)

Module RateLimiterMore.
Import RateLimiter.

Lemma Qgtb_cases (x y : Q) :
  (Qgtb x y = true /\ (y < x)%Q) \/ (Qgtb x y = false /\ (x <= y)%Q).
Proof.
  unfold Qgtb. destruct (Qle_bool x y) eqn:E.
  - right. split; [reflexivity | apply Qle_bool_iff; exact E].
  - left. split; [reflexivity |]. apply Qnot_le_lt. intros H.
    apply Qle_bool_iff in H. congruence.
Qed.

Lemma base_delay_ordered (self : AdaptiveRateLimiter) :
  (0 < fst (_get_base_delay self))%Q
  /\ (fst (_get_base_delay self) <= snd (_get_base_delay self))%Q.
Proof.
  unfold _get_base_delay. destruct (strategy self); cbn; split; reflexivity || discriminate.
Qed.

(** the penalty added for a positive number of consecutive failures *)
Lemma penalty_bounds (k : Z) :
  (0 < k)%Z ->
  (0 < Qmin (inject_Z k * 0.5) 6.0)%Q /\ (Qmin (inject_Z k * 0.5) 6.0 <= 6.0)%Q.
Proof.
  intros Hk. split; [| apply Q.le_min_r].
  assert (H1 : (1 <= inject_Z k)%Q).
  { change 1%Q with (inject_Z 1). rewrite <- Zle_Qle. lia. }
  destruct (Q.min_spec (inject_Z k * 0.5) 6.0) as [[_ E] | [_ E]]; rewrite E; lra.
Qed.

Lemma multiplier_bounds (self : AdaptiveRateLimiter) :
  (0.8 <= delay_multiplier self)%Q /\ (delay_multiplier self <= 7.5)%Q.
Proof.
  unfold delay_multiplier.
  destruct (strategy_eqb (strategy self) ADAPTIVE); [| split; discriminate].
  destruct (Z.gtb_spec (consecutive_failures self) 0) as [Hk | _].
  - destruct (penalty_bounds _ Hk) as [Hlo Hhi].
    destruct (Qgtb (delay_success_rate self) 0.9);
      [| destruct (Qgtb (delay_success_rate self) 0.7)]; split; lra.
  - destruct (Qgtb (delay_success_rate self) 0.9);
      [| destruct (Qgtb (delay_success_rate self) 0.7)]; split; discriminate.
Qed.

Lemma uniform_between (a b u : Q) :
  (a <= b)%Q -> (0 <= u)%Q -> (u <= 1)%Q ->
  (a <= uniform a b u)%Q /\ (uniform a b u <= b)%Q.
Proof. intros Hab H0 H1. unfold uniform. split; nra. Qed.

(** X1: [wait] sleeps for a delay between the strategy's base bounds scaled by
    the multiplier, whatever the draw in [0, 1], stamps the limiter with the
    time after the sleep and leaves its strategy and counters alone. *)
Theorem wait_delay_in_scaled_range (self : AdaptiveRateLimiter) (u now : Q) :
  (0 <= u)%Q -> (u <= 1)%Q ->
  let '(base_min, base_max) := _get_base_delay self in
  let delay := fst (wait self u now) in
  let self' := snd (wait self u now) in
  (base_min * delay_multiplier self <= delay)%Q
  /\ (delay <= base_max * delay_multiplier self)%Q
  /\ last_request_time self' = now
  /\ strategy self' = strategy self
  /\ success_count self' = success_count self
  /\ failure_count self' = failure_count self
  /\ consecutive_failures self' = consecutive_failures self.
Proof.
  intros H0 H1.
  pose proof (base_delay_ordered self) as [Hpos Hord].
  pose proof (multiplier_bounds self) as [Hm _].
  unfold wait, _calculate_delay.
  destruct (_get_base_delay self) as [base_min base_max]. cbn [fst snd] in *.
  destruct (uniform_between (base_min * delay_multiplier self)
              (base_max * delay_multiplier self) u) as [Hlo Hhi];
    [nra | exact H0 | exact H1 |].
  repeat split; assumption.
Qed.

Lemma wait_delay_in_scaled_range_witness :
  let self := mkLimiter ADAPTIVE 9 1 2 0 in
  (2.0 * delay_multiplier self <= fst (wait self 0.5 100.0))%Q
  /\ (fst (wait self 0.5 100.0) <= 5.0 * delay_multiplier self)%Q
  /\ last_request_time (snd (wait self 0.5 100.0)) = 100.0%Q
  /\ strategy (snd (wait self 0.5 100.0)) = ADAPTIVE
  /\ success_count (snd (wait self 0.5 100.0)) = 9%Z
  /\ failure_count (snd (wait self 0.5 100.0)) = 1%Z
  /\ consecutive_failures (snd (wait self 0.5 100.0)) = 2%Z.
Proof.
  apply (wait_delay_in_scaled_range (mkLimiter ADAPTIVE 9 1 2 0) 0.5 100.0);
    discriminate.
Defined.

(** X2: Absolute bounds of the delay: 3.5 to 7.0 seconds on the conservative
    strategy and 1.0 to 3.0 on the aggressive one, whatever the counters;
    1.6 to 37.5 on the adaptive one, whose multiplier stays between 0.8
    and 7.5. *)
Theorem delay_bounds_by_strategy (self : AdaptiveRateLimiter) (u : Q) :
  (0 <= u)%Q -> (u <= 1)%Q ->
  match strategy self with
  | CONSERVATIVE => (3.5 <= _calculate_delay self u)%Q /\ (_calculate_delay self u <= 7.0)%Q
  | AGGRESSIVE => (1.0 <= _calculate_delay self u)%Q /\ (_calculate_delay self u <= 3.0)%Q
  | ADAPTIVE =>
      (0.8 <= delay_multiplier self)%Q /\ (delay_multiplier self <= 7.5)%Q
      /\ (1.6 <= _calculate_delay self u)%Q /\ (_calculate_delay self u <= 37.5)%Q
  end.
Proof.
  intros H0 H1.
  pose proof (multiplier_bounds self) as [Hm Hm'].
  unfold _calculate_delay, _get_base_delay.
  assert (Hna : strategy self <> ADAPTIVE -> delay_multiplier self = 1.0%Q).
  { unfold delay_multiplier. destruct (strategy self); [reflexivity .. |]. congruence. }
  destruct (strategy self) eqn:Es; cbn [strategy_eqb].
  - rewrite Hna by discriminate.
    destruct (uniform_between (3.5 * 1.0) (7.0 * 1.0) u) as [Hlo Hhi];
      [discriminate | exact H0 | exact H1 |].
    split; lra.
  - rewrite Hna by discriminate.
    destruct (uniform_between (1.0 * 1.0) (3.0 * 1.0) u) as [Hlo Hhi];
      [discriminate | exact H0 | exact H1 |].
    split; lra.
  - destruct (uniform_between (2.0 * delay_multiplier self)
                (5.0 * delay_multiplier self) u) as [Hlo Hhi];
      [nra | exact H0 | exact H1 |].
    repeat split; lra.
Qed.

Lemma delay_bounds_by_strategy_witness :
  (3.5 <= _calculate_delay (mkLimiter CONSERVATIVE 0 40 40 0) 1)%Q
  /\ (_calculate_delay (mkLimiter CONSERVATIVE 0 40 40 0) 1 <= 7.0)%Q.
Proof.
  apply (delay_bounds_by_strategy (mkLimiter CONSERVATIVE 0 40 40 0) 1);
    discriminate.
Defined.

(** X3: With the strategy and the success and failure counts fixed, more
    consecutive failures never shorten the delay scale, and from twelve
    consecutive failures on the penalty stays at its cap of 6.0. *)
Theorem penalty_monotone_and_capped
        (s : RateLimitStrategy) (sc fc k1 k2 : Z) (t1 t2 : Q) :
  (k1 <= k2)%Z ->
  (delay_multiplier (mkLimiter s sc fc k1 t1)
   <= delay_multiplier (mkLimiter s sc fc k2 t2))%Q
  /\ ((12 <= k1)%Z ->
      (delay_multiplier (mkLimiter s sc fc k1 t1)
       == delay_multiplier (mkLimiter s sc fc k2 t2))%Q).
Proof.
  intros Hk. unfold delay_multiplier, delay_success_rate, rate_or.
  cbn [strategy success_count failure_count consecutive_failures].
  destruct (strategy_eqb s ADAPTIVE); [| split; [apply Qle_refl | reflexivity]].
  set (tier := if Qgtb _ 0.9 then _ else _).
  assert (Hcap : forall k, (12 <= k)%Z -> (Qmin (inject_Z k * 0.5) 6.0 == 6.0)%Q).
  { intros k H12. apply Q.min_r.
    assert ((12 <= inject_Z k)%Q) by (change 12%Q with (inject_Z 12); rewrite <- Zle_Qle; lia).
    lra. }
  split.
  - destruct (Z.gtb_spec k1 0) as [H1 | H1]; destruct (Z.gtb_spec k2 0) as [H2 | H2];
      try lia.
    + apply Qplus_le_r. apply Q.min_le_compat_r.
      assert ((inject_Z k1 <= inject_Z k2)%Q) by (rewrite <- Zle_Qle; exact Hk).
      lra.
    + destruct (penalty_bounds k2 H2) as [Hp _]. lra.
    + apply Qle_refl.
  - intros H12.
    destruct (Z.gtb_spec k1 0) as [_ | H1]; [| lia].
    destruct (Z.gtb_spec k2 0) as [_ | H2]; [| lia].
    rewrite (Hcap k1 H12), (Hcap k2) by lia. reflexivity.
Qed.

Lemma penalty_monotone_and_capped_witness :
  (delay_multiplier (mkLimiter ADAPTIVE 3 9 12 0)
   <= delay_multiplier (mkLimiter ADAPTIVE 3 9 30 0))%Q
  /\ ((12 <= 12)%Z ->
      (delay_multiplier (mkLimiter ADAPTIVE 3 9 12 0)
       == delay_multiplier (mkLimiter ADAPTIVE 3 9 30 0))%Q).
Proof.
  apply (penalty_monotone_and_capped ADAPTIVE 3 9 12 30 0 0). lia.
Defined.

Lemma replay_snoc (self : AdaptiveRateLimiter) (rs : list report) (r : report) :
  replay self (rs ++ [r]) = record (replay self rs) r.
Proof. unfold replay. rewrite fold_left_app. reflexivity. Qed.

Lemma count_failed_snoc (rs : list report) (r : report) :
  count_failed (rs ++ [r])
  = (count_failed rs + if is_failed r then 1 else 0)%Z.
Proof.
  unfold count_failed. rewrite List.filter_app, List.length_app. cbn [List.filter].
  destruct (is_failed r); cbn [List.length]; lia.
Qed.

Lemma count_succeeded_snoc (rs : list report) (r : report) :
  count_succeeded (rs ++ [r])
  = (count_succeeded rs + if is_failed r then 0 else 1)%Z.
Proof.
  unfold count_succeeded. rewrite List.filter_app, List.length_app. cbn [List.filter].
  destruct (is_failed r); cbn [negb List.length]; lia.
Qed.

Lemma trailing_failures_snoc (rs : list report) (r : report) :
  trailing_failures (rs ++ [r])
  = if is_failed r then (1 + trailing_failures rs)%Z else 0%Z.
Proof.
  unfold trailing_failures. rewrite List.rev_app_distr. cbn [List.rev List.app].
  destruct r; reflexivity.
Qed.

Lemma replay_counts (s : RateLimitStrategy) (rs : list report) :
  strategy (replay (init s) rs) = s
  /\ success_count (replay (init s) rs) = count_succeeded rs
  /\ failure_count (replay (init s) rs) = count_failed rs
  /\ consecutive_failures (replay (init s) rs) = trailing_failures rs
  /\ (0 <= trailing_failures rs <= count_failed rs)%Z.
Proof.
  induction rs as [| r rs IH] using rev_ind.
  - cbn. repeat split; try reflexivity; lia.
  - destruct IH as (Hs & Hsc & Hfc & Hcf & Hb).
    rewrite replay_snoc, count_failed_snoc, count_succeeded_snoc,
      trailing_failures_snoc.
    destruct r; cbn [record record_success record_failure strategy success_count
                       failure_count consecutive_failures is_failed];
      rewrite ?Hsc, ?Hfc, ?Hcf; repeat split; try assumption; try lia.
Qed.

(** X4: After any sequence of reports to a new limiter, the counters are the
    numbers of successes and of failures reported, and
    [consecutive_failures] is the length of the run of failures that ends
    the sequence: zero as soon as the last report is a success, never
    negative and never above [failure_count]. *)
Theorem replay_counters (s : RateLimitStrategy) (rs : list report) :
  let self := replay (init s) rs in
  strategy self = s
  /\ success_count self = count_succeeded rs
  /\ failure_count self = count_failed rs
  /\ consecutive_failures self = trailing_failures rs
  /\ (0 <= consecutive_failures self <= failure_count self)%Z
  /\ (forall rs', consecutive_failures (replay (init s) (rs' ++ [Succeeded])) = 0%Z).
Proof.
  cbn zeta. destruct (replay_counts s rs) as (Hs & Hsc & Hfc & Hcf & Hb).
  repeat split; try assumption; try lia.
  intros rs'. rewrite replay_snoc. reflexivity.
Qed.

Lemma rate_or_unit_interval (dflt : Q) (self : AdaptiveRateLimiter) :
  (0 <= dflt)%Q -> (dflt <= 1)%Q ->
  (0 <= success_count self)%Z -> (0 <= failure_count self)%Z ->
  (0 <= rate_or dflt self)%Q /\ (rate_or dflt self <= 1)%Q.
Proof.
  intros Hd0 Hd1 Hs Hf. unfold rate_or.
  destruct (Z.gtb_spec (success_count self + failure_count self) 0) as [Ht | _];
    [| split; assumption].
  assert (Hpos : (0 < inject_Z (success_count self + failure_count self))%Q).
  { change 0%Q with (inject_Z 0). rewrite <- Zlt_Qlt. lia. }
  split.
  - apply Qle_shift_div_l; [exact Hpos |]. rewrite Qmult_0_l.
    change 0%Q with (inject_Z 0). rewrite <- Zle_Qle. exact Hs.
  - apply Qle_shift_div_r; [exact Hpos |]. rewrite Qmult_1_l.
    rewrite <- Zle_Qle. lia.
Qed.

(** X5: After any sequence of reports to a new limiter, the success rate that
    [get_stats] reports and the one [_calculate_delay] uses lie between 0
    and 1; once something was reported they are the same number. *)
Theorem replay_rates_in_unit_interval (s : RateLimitStrategy) (rs : list report) :
  let self := replay (init s) rs in
  (0 <= st_success_rate (get_stats self))%Q
  /\ (st_success_rate (get_stats self) <= 1)%Q
  /\ (0 <= delay_success_rate self)%Q
  /\ (delay_success_rate self <= 1)%Q
  /\ (rs <> [] -> st_success_rate (get_stats self) = delay_success_rate self).
Proof.
  cbn zeta.
  destruct (replay_counts s rs) as (_ & Hsc & Hfc & _).
  assert (Hs : (0 <= success_count (replay (init s) rs))%Z)
    by (rewrite Hsc; unfold count_succeeded; lia).
  assert (Hf : (0 <= failure_count (replay (init s) rs))%Z)
    by (rewrite Hfc; unfold count_failed; lia).
  destruct (rate_or_unit_interval 0.0 _ (Qle_refl 0.0) ltac:(discriminate) Hs Hf)
    as [Ha Hb].
  destruct (rate_or_unit_interval 1.0 _ ltac:(discriminate) (Qle_refl 1.0) Hs Hf)
    as [Hc Hd].
  split; [exact Ha |]. split; [exact Hb |]. split; [exact Hc |]. split; [exact Hd |].
  intros Hne. cbn [get_stats st_success_rate]. unfold delay_success_rate, rate_or.
  assert (Ht : (0 < success_count (replay (init s) rs)
                    + failure_count (replay (init s) rs))%Z).
  { rewrite Hsc, Hfc. unfold count_succeeded, count_failed.
    rewrite <- Nat2Z.inj_add.
    assert (Hlen : (List.length (List.filter (fun r => negb (is_failed r)) rs)
                    + List.length (List.filter is_failed rs))%nat = List.length rs).
    { clear. induction rs as [| r rs IH]; [reflexivity |].
      cbn [List.filter]. destruct (is_failed r); cbn [negb List.length]; lia. }
    rewrite Hlen. destruct rs; [congruence | cbn [List.length]; lia]. }
  destruct (Z.gtb_spec (success_count (replay (init s) rs)
                        + failure_count (replay (init s) rs)) 0); [reflexivity | lia].
Qed.

Lemma replay_rates_in_unit_interval_witness :
  st_success_rate (get_stats (replay (init ADAPTIVE) [Failed; Succeeded; Failed]))
  = delay_success_rate (replay (init ADAPTIVE) [Failed; Succeeded; Failed]).
Proof.
  apply (replay_rates_in_unit_interval ADAPTIVE [Failed; Succeeded; Failed]).
  discriminate.
Defined.

End RateLimiterMore.

(** ** RequestThrottler: configuration, waiting and the rate ceiling *)

Module ThrottlerMore.
Import Throttler ThrottlerFacts.



(** X7: When a request is refused, [wait_if_needed] sleeps for the positive
    time left until the slot opens and leaves the throttler as it was: it
    neither records the request that proceeds after the sleep nor checks
    again.  So the slot is still free afterwards: the next call of
    [can_make_request] at any time that has reached the slot is admitted,
    and any call before that is refused as before. *)
Theorem refused_then_waited (self : RequestThrottler) (now : Q) :
  (now < _last_ts self + _interval self)%Q ->
  let '(slept, self') := wait_if_needed self now in
  (slept == _last_ts self + _interval self - now)%Q
  /\ (0 < slept)%Q
  /\ self' = self
  /\ (forall t, (_last_ts self + _interval self <= t)%Q ->
                can_make_request self' t
                = (0.0%Q, mkThrottler (requests_per_minute self) (_interval self) t))
  /\ (forall t, (t < _last_ts self + _interval self)%Q ->
                snd (can_make_request self' t) = self).
Proof.
  intros Hlt. unfold wait_if_needed.
  rewrite (can_make_request_refuse self now Hlt).
  assert (Hpos : (0 < _last_ts self + _interval self - now)%Q) by lra.
  destruct (Qle_bool (_last_ts self + _interval self - now) 0) eqn:E.
  { apply Qle_bool_iff in E. lra. }
  cbn [negb].
  split; [reflexivity |]. split; [exact Hpos |]. split; [reflexivity |].
  split.
  - intros t Ht. apply can_make_request_admit. exact Ht.
  - intros t Ht. rewrite (can_make_request_refuse self t Ht). reflexivity.
Qed.

Lemma refused_then_waited_witness :
  (fst (wait_if_needed (mkThrottler 30 2.0 10.0) 11.0) == 1)%Q
  /\ snd (wait_if_needed (mkThrottler 30 2.0 10.0) 11.0) = mkThrottler 30 2.0 10.0.
Proof.
  pose proof (refused_then_waited (mkThrottler 30 2.0 10.0) 11.0) as H.
  cbv beta iota zeta in H.
  destruct (wait_if_needed (mkThrottler 30 2.0 10.0) 11.0) as [slept self'] eqn:E.
  destruct H as (Hs & _ & Hself & _); [reflexivity |].
  cbn [fst snd]. split; [rewrite Hs; reflexivity | exact Hself].
Defined.

End ThrottlerMore.

(** ** intelligent_retry: outcomes, budget and waits *)

Module RetryMore.
Import Retry RetryFacts.

Section Runs.

Variables W V : Type.
Variables (max_retries : Z) (base_delay max_delay : Q).
Variable func : W -> result V * W.
Variable rnd : Z -> Q.
Variable func_has_name : bool.
Variable sleep_max : Q.

Local Abbreviation loop :=
  (wrapper_loop max_retries base_delay max_delay func rnd func_has_name sleep_max).

Lemma loop_succeeds_after (k : nat) :
  (0 <= base_delay)%Q -> (0 <= max_delay)%Q -> (max_delay + 1.5 <= sleep_max)%Q ->
  (forall j, (0 <= rnd j)%Q /\ (rnd j < 1)%Q) ->
  forall (fuel : nat) (attempt : Z) (w wk w' : W) (v : V),
    after_failures func k w = Some wk ->
    func wk = (Ok v, w') ->
    (0 <= attempt)%Z ->
    (attempt + Z.of_nat k < max_retries)%Z ->
    (attempt + Z.of_nat k <= 1024)%Z ->
    (k < fuel)%nat ->
    exists tr,
      loop fuel attempt w = Some (Returns v, w', tr)
      /\ calls tr = S k
      /\ List.length (sleeps tr) = k.
Proof.
  intros Hb Hm Hs Hrnd.
  induction k as [| k IH]; intros fuel attempt w wk w' v Hk Hok H0 Hlt H1024 Hfuel;
    (destruct fuel as [| fuel]; [lia |]); cbn [wrapper_loop];
    (destruct (Z.ltb_spec attempt max_retries) as [_ | Hge]; [| lia]);
    cbn [after_failures] in Hk.
  - inversion Hk; subst wk. rewrite Hok. eexists. repeat split.
  - destruct (func w) as [[v0 | e] w1]; [discriminate |].
    destruct (handler_sleeps base_delay max_delay rnd sleep_max
                e (attempt + 1)%Z Hb Hm Hs Hrnd) as [Hp Hsl]; [lia |].
    rewrite Hp, Hsl.
    destruct (Z.geb_spec (attempt + 1) max_retries) as [Hlast | _]; [lia |].
    destruct (IH fuel (attempt + 1)%Z w1 wk w' v Hk Hok) as (tr & E & Hc & Hl);
      [lia | lia | lia | lia |].
    rewrite E. eexists. split; [reflexivity |].
    unfold calls in *. cbn. rewrite Hc, Hl. split; reflexivity.
Qed.

(** the shape of every run of the loop *)
Lemma loop_budget (fuel : nat) :
  forall (attempt : Z) (w : W) (o : outcome V) (w' : W) (tr : list event),
    (0 <= attempt <= 1024)%Z ->
    loop fuel attempt w = Some (o, w', tr) ->
    (Z.of_nat (calls tr) <= Z.max 0 (max_retries - attempt))%Z
    /\ match o with
       | ReturnsNone => tr = [] /\ (max_retries <= attempt)%Z /\ w' = w
       | Returns _ => S (List.length (sleeps tr)) = calls tr
       | Raises (Reraised _) =>
           Z.of_nat (calls tr) = (max_retries - attempt)%Z
           /\ List.length (sleeps tr) = calls tr
           /\ func_has_name = true
           /\ (max_retries <= 1024)%Z
       | Raises AttributeError_name =>
           Z.of_nat (calls tr) = (max_retries - attempt)%Z
           /\ List.length (sleeps tr) = calls tr
           /\ func_has_name = false
       | Raises OverflowError_float =>
           (attempt + Z.of_nat (calls tr) = 1025)%Z
           /\ S (List.length (sleeps tr)) = calls tr
       | Raises ValueError_sleep | Raises OverflowError_sleep =>
           List.length (sleeps tr) = calls tr
       | Raises (RetryExhausted _) => False
       end.
Proof.
  induction fuel as [| fuel IH]; intros attempt w o w' tr Hatt Hrun; [discriminate |].
  cbn [wrapper_loop] in Hrun.
  destruct (Z.ltb_spec attempt max_retries) as [Hlt | Hge].
  - destruct (func w) as [[v | e] w1].
    + inversion Hrun; subst. cbn. split; [lia | reflexivity].
    + destruct (pow_overflows (attempt + 1)) eqn:Hp; unfold pow_overflows in Hp.
      * apply Z.leb_le in Hp. inversion Hrun; subst. cbn.
        split; [lia |]. split; [lia | reflexivity].
      * apply Z.leb_gt in Hp.
        destruct (time_sleep sleep_max _) as [r |] eqn:Hsl.
        { inversion Hrun; subst. unfold time_sleep in Hsl.
          destruct (Qle_bool 0 _); [destruct (Qle_bool _ sleep_max) |];
            inversion Hsl; subst; cbn; split; lia || reflexivity. }
        destruct (Z.geb_spec (attempt + 1) max_retries) as [Hlast | Hmore].
        { destruct func_has_name eqn:Hname; inversion Hrun; subst; cbn;
            (split; [lia |]); repeat split; lia || reflexivity. }
        destruct (loop fuel (attempt + 1)%Z w1) as [[[o2 w2] tr2] |] eqn:E;
          [| discriminate].
        inversion Hrun; subst.
        assert (Hnext : (0 <= attempt + 1 <= 1024)%Z) by lia.
        destruct (IH _ _ _ _ _ Hnext E) as [Hc Hshape].
        assert (Hcalls : calls (Call :: Sleep (backoff_wait base_delay max_delay e
                                                 (attempt + 1) (rnd (attempt + 1)))
                                     :: tr2) = S (calls tr2)) by reflexivity.
        assert (Hsleeps : List.length
                            (sleeps (Call :: Sleep (backoff_wait base_delay max_delay e
                                                      (attempt + 1) (rnd (attempt + 1)))
                                          :: tr2))
                          = S (List.length (sleeps tr2))) by reflexivity.
        rewrite Hcalls, Hsleeps. split; [lia |].
        destruct o as [v | r |]; [lia | | destruct Hshape as (_ & Hm & _); lia].
        destruct r; intuition (try lia).
  - inversion Hrun; subst. cbn. split; [lia |]. repeat split. exact Hge.
Qed.

End Runs.

(** X9: An action that fails [k] times in a row and then succeeds, with [k]
    below [max_retries] and at most 1024, under a policy whose delays are
    not negative and within what [time.sleep] accepts, makes the wrapper
    return the action's value after [k + 1] calls and [k] sleeps; with
    [k = 0] this is a first call that succeeds, with no sleep at all. *)
Theorem returns_after_failures
        (W V : Type) (max_retries : Z) (base_delay max_delay : Q)
        (func : W -> result V * W) (rnd : Z -> Q)
        (func_has_name : bool) (sleep_max : Q)
        (k : nat) (w wk w' : W) (v : V) :
  (0 <= base_delay)%Q -> (0 <= max_delay)%Q -> (max_delay + 1.5 <= sleep_max)%Q ->
  (forall j, (0 <= rnd j)%Q /\ (rnd j < 1)%Q) ->
  after_failures func k w = Some wk ->
  func wk = (Ok v, w') ->
  (Z.of_nat k < max_retries)%Z ->
  (Z.of_nat k <= 1024)%Z ->
  exists tr,
    wrapper max_retries base_delay max_delay func rnd func_has_name sleep_max w
    = Some (Returns v, w', tr)
    /\ calls tr = S k
    /\ List.length (sleeps tr) = k.
Proof.
  intros Hb Hm Hs Hrnd Hk Hok Hlt H1024. unfold wrapper.
  apply (loop_succeeds_after W V max_retries base_delay max_delay func rnd
           func_has_name sleep_max k Hb Hm Hs Hrnd)
    with (wk := wk); [exact Hk | exact Hok | lia | lia | lia | lia].
Qed.

Lemma returns_after_failures_witness :
  exists tr,
    wrapper 5 2.0 60.0 Samples.flaky_twice (fun _ => 0.5%Q) false
            Samples.sleep_max_64 0%nat
    = Some (Returns 2%nat, 3%nat, tr)
    /\ calls tr = 3%nat
    /\ List.length (sleeps tr) = 2%nat.
Proof.
  apply (returns_after_failures nat nat 5 2.0 60.0 Samples.flaky_twice
           (fun _ => 0.5%Q) false Samples.sleep_max_64 2%nat 0%nat 2%nat 3%nat 2%nat);
    [discriminate | discriminate | discriminate
     | intros j; split; [discriminate | reflexivity]
     | reflexivity | reflexivity | lia | lia].
Defined.

(** X10: The shape of every run.  The action is never called more than
    [max_retries] times.  The wrapper re-raises the action's error only
    after exactly [max_retries] calls, each followed by a sleep, the last
    one included, and only for an action with a [__name__] and
    [max_retries] up to 1024; without a [__name__] it raises
    [AttributeError] at that point instead.  It raises [OverflowError] from
    the power exactly at the 1025th call, after 1024 sleeps.  When
    [time.sleep] refuses a length, that call of [time.sleep] is the last
    event.  It returns a value after one sleep less than calls, falls
    through to [None] only when [max_retries <= 0], having done nothing,
    and never raises an exception of a class [RetryExhausted]. *)
Theorem retry_budget
        (W V : Type) (max_retries : Z) (base_delay max_delay : Q)
        (func : W -> result V * W) (rnd : Z -> Q)
        (func_has_name : bool) (sleep_max : Q)
        (w : W) (o : outcome V) (w' : W) (tr : list event) :
  wrapper max_retries base_delay max_delay func rnd func_has_name sleep_max w
  = Some (o, w', tr) ->
  (Z.of_nat (calls tr) <= Z.max 0 max_retries)%Z
  /\ match o with
     | ReturnsNone => tr = [] /\ (max_retries <= 0)%Z /\ w' = w
     | Returns _ => S (List.length (sleeps tr)) = calls tr
     | Raises (Reraised _) =>
         Z.of_nat (calls tr) = max_retries
         /\ List.length (sleeps tr) = calls tr
         /\ func_has_name = true
         /\ (max_retries <= 1024)%Z
     | Raises AttributeError_name =>
         Z.of_nat (calls tr) = max_retries
         /\ List.length (sleeps tr) = calls tr
         /\ func_has_name = false
     | Raises OverflowError_float =>
         calls tr = 1025%nat /\ List.length (sleeps tr) = 1024%nat
     | Raises ValueError_sleep | Raises OverflowError_sleep =>
         List.length (sleeps tr) = calls tr
     | Raises (RetryExhausted _) => False
     end.
Proof.
  intros Hrun. unfold wrapper in Hrun.
  assert (H0 : (0 <= 0 <= 1024)%Z) by lia.
  destruct (loop_budget W V max_retries base_delay max_delay func rnd
              func_has_name sleep_max _ _ _ _ _ _ H0 Hrun) as [Hc H].
  rewrite Z.sub_0_r in Hc. split; [exact Hc |].
  destruct o as [v | r |]; [exact H | | exact H].
  destruct r; try exact H.
  - destruct H as (H1 & H2 & H3 & H4). repeat split; try assumption; lia.
  - destruct H as (H1 & H2). split; lia.
  - destruct H as (H1 & H2 & H3). repeat split; try assumption; lia.
Qed.

Lemma retry_budget_witness :
  match wrapper 2 1.0 60.0 Samples.always_429 (fun _ => 0.5%Q) true
                Samples.sleep_max_64 0%nat with
  | Some (_, _, tr) => (Z.of_nat (calls tr) <= Z.max 0 2)%Z
  | None => False
  end.
Proof.
  destruct (wrapper 2 1.0 60.0 Samples.always_429 (fun _ => 0.5%Q) true
                    Samples.sleep_max_64 0%nat)
    as [[[o w'] tr] |] eqn:E.
  - exact (proj1 (retry_budget nat nat 2 1.0 60.0 Samples.always_429
                    (fun _ => 0.5%Q) true Samples.sleep_max_64 0%nat o w' tr E)).
  - vm_compute in E. discriminate E.
Defined.

(** X11: A wait that the handler computes (attempts 1 to 1024, draw in
    [0, 1]) is at most [max_delay + 1.5] seconds whatever the error, and it
    is not negative when the two delays of the policy are not. *)
Theorem backoff_wait_bounded (base_delay max_delay : Q) (e : PyError)
        (attempt : Z) (u : Q) :
  (1 <= attempt <= 1024)%Z ->
  (0 <= u)%Q -> (u <= 1)%Q ->
  (backoff_wait base_delay max_delay e attempt u <= max_delay + 1.5)%Q
  /\ ((0 <= base_delay)%Q -> (0 <= max_delay)%Q ->
      (0 <= backoff_wait base_delay max_delay e attempt u)%Q).
Proof.
  intros Ha H0 H1. split.
  - unfold backoff_wait.
    pose proof (Q.le_min_l max_delay
                  (base_delay * inject_Z (2 ^ (attempt - 1))
                   * backoff_multiplier (is_rate_limit e) attempt)) as Hmin.
    lra.
  - intros Hb Hm.
    apply (backoff_wait_range base_delay max_delay e attempt u);
      [assumption | assumption | lia | assumption | assumption].
Qed.

Lemma backoff_wait_bounded_witness :
  (backoff_wait 2.0 60.0 (mkError "timeout" None None) 9 0.99 <= 60.0 + 1.5)%Q
  /\ (0 <= backoff_wait 2.0 60.0 (mkError "timeout" None None) 9 0.99)%Q.
Proof.
  destruct (backoff_wait_bounded 2.0 60.0 (mkError "timeout" None None) 9 0.99)
    as [Hhi Hlo]; [lia | discriminate | discriminate |].
  split; [exact Hhi | apply Hlo; discriminate].
Defined.

(** X12: For the same attempt and the same draw, the wait after a rate-limit-class
    error is at least the wait after any other error. *)
Theorem rate_limit_waits_longer (base_delay max_delay : Q) (e1 e2 : PyError)
        (attempt : Z) (u : Q) :
  (0 <= base_delay)%Q -> (0 <= attempt)%Z ->
  is_rate_limit e1 = true -> is_rate_limit e2 = false ->
  (backoff_wait base_delay max_delay e2 attempt u
   <= backoff_wait base_delay max_delay e1 attempt u)%Q.
Proof.
  intros Hb Ha H1 H2. unfold backoff_wait. rewrite H1, H2.
  apply Qplus_le_l. apply Q.min_le_compat_l.
  pose proof (pow2_pos (attempt - 1)) as Hp.
  assert (Hf : (0 <= base_delay * inject_Z (2 ^ (attempt - 1)))%Q)
    by (apply Qmult_le_0_compat; assumption).
  assert (Hi : (0 <= inject_Z attempt)%Q).
  { change 0%Q with (inject_Z 0). rewrite <- Zle_Qle. exact Ha. }
  unfold backoff_multiplier.
  set (f := (base_delay * inject_Z (2 ^ (attempt - 1)))%Q) in *.
  nra.
Qed.

Lemma rate_limit_waits_longer_witness :
  (backoff_wait 2.0 60.0 (mkError "Connection reset by peer" None None) 2 0.5
   <= backoff_wait 2.0 60.0 (mkError "Too Many Requests" None None) 2 0.5)%Q.
Proof.
  apply (rate_limit_waits_longer 2.0 60.0
           (mkError "Too Many Requests" None None)
           (mkError "Connection reset by peer" None None) 2 0.5);
    [discriminate | lia | reflexivity | reflexivity].
Defined.

(** X13: An error whose message, once lowered, holds a phrase of the vocabulary
    anywhere in it is rate-limit-class, whatever its status codes. *)
Theorem phrase_anywhere_is_rate_limit (e : PyError) (phrase pre post : string) :
  In phrase rate_limit_vocabulary ->
  lower (err_str e) = (pre +:+ (phrase +:+ post))%string ->
  is_rate_limit e = true.
Proof.
  intros Hin Hmsg. apply is_rate_limit_spec. right.
  exists phrase. split; [exact Hin |]. rewrite Hmsg. apply contains_append.
Qed.

Lemma phrase_anywhere_is_rate_limit_witness :
  is_rate_limit (mkError "Error 400: Checkpoint_Required (see url)" (Some 400%Z) None)
  = true.
Proof.
  apply (phrase_anywhere_is_rate_limit _ "checkpoint_required" "error 400: " " (see url)").
  - cbn. tauto.
  - reflexivity.
Defined.

(** X14: How the status decides when the message holds no phrase of the
    vocabulary.  A non-zero [status_code] attribute other than 429 makes the
    error generic whatever the response says, even 429: the response's
    status is looked at only when the attribute is missing or zero, and then
    429 there makes the error rate-limit-class. *)
Theorem status_decides_without_phrase (e : PyError) :
  existsb (fun p => contains p (lower (err_str e))) rate_limit_vocabulary = false ->
  (forall z, err_status_code e = Some z -> z <> 0%Z -> z <> 429%Z ->
             is_rate_limit e = false)
  /\ (err_status_code e = None \/ err_status_code e = Some 0%Z ->
      (is_rate_limit e = true <-> err_response_status e = Some 429%Z)).
Proof.
  intros Hmsg. unfold is_rate_limit. rewrite Hmsg, orb_false_r. unfold py_or. split.
  - intros z Hz H0 H429. rewrite Hz.
    destruct (Z.eqb_spec z 0) as [E | _]; [contradiction |].
    apply Z.eqb_neq. exact H429.
  - intros [Hn | Hz]; [rewrite Hn | rewrite Hz; cbn [Z.eqb]];
      (destruct (err_response_status e) as [r |];
       [rewrite Z.eqb_eq; split; congruence | split; discriminate]).
Qed.

Lemma status_decides_without_phrase_witness :
  is_rate_limit (mkError "Internal Server Error" (Some 500%Z) (Some 429%Z)) = false.
Proof.
  apply (proj1 (status_decides_without_phrase
                  (mkError "Internal Server Error" (Some 500%Z) (Some 429%Z)) eq_refl)
           500%Z); [reflexivity | discriminate | discriminate].
Defined.

End RetryMore.

(** ** SessionManager: the pool under calls *)

Module PoolMore.
Import Sessions PoolFacts ManagerFacts.

Lemma existsb_ids (sid : string) (pool : list SessionData) :
  existsb (fun s => String.eqb (sessionid s) sid) pool = true <-> In sid (ids pool).
Proof.
  unfold ids. rewrite existsb_exists, in_map_iff. split.
  - intros (s & Hin & E). apply String.eqb_eq in E. exists s. split; assumption.
  - intros (s & E & Hin). exists s. split; [exact Hin | apply String.eqb_eq; exact E].
Qed.

Lemma ids_update_first (f : SessionData -> SessionData) (sid : string)
      (pool : list SessionData) :
  (forall s, sessionid (f s) = sessionid s) ->
  ids (update_first f sid pool) = ids pool.
Proof.
  intros Hf. unfold ids. induction pool as [| s r IH]; [reflexivity |].
  cbn [update_first]. destruct (String.eqb (sessionid s) sid); cbn [List.map].
  - rewrite Hf. reflexivity.
  - rewrite IH. reflexivity.
Qed.

Lemma ids_insert (pool : list SessionData) :
  forall (i : nat) (s s' : SessionData),
    pool !! i = Some s -> sessionid s' = sessionid s ->
    ids (<[i := s']> pool) = ids pool.
Proof.
  unfold ids. induction pool as [| x r IH]; intros i s s' Hi Hid; [reflexivity |].
  destruct i as [| i].
  - cbn in Hi. inversion Hi; subst. cbn. rewrite Hid. reflexivity.
  - cbn in Hi. change (<[S i := s']> (x :: r)) with (x :: <[i := s']> r).
    cbn [List.map]. f_equal. exact (IH i s s' Hi Hid).
Qed.

Lemma lookup_of_In (pool : list SessionData) (s : SessionData) :
  In s pool <-> exists i, pool !! i = Some s.
Proof. rewrite <- list_elem_of_In. apply list_elem_of_lookup. Qed.

Lemma In_insert (pool : list SessionData) (i : nat) (s x : SessionData) :
  In x (<[i := s]> pool) -> x = s \/ In x pool.
Proof.
  revert i. induction pool as [| y r IH]; intros i Hin; [destruct Hin |].
  destruct i as [| i]; cbn in Hin.
  - destruct Hin as [<- | Hin]; [left; reflexivity | right; right; exact Hin].
  - destruct Hin as [<- | Hin]; [right; left; reflexivity |].
    destruct (IH i Hin) as [-> | H]; [left; reflexivity | right; right; exact H].
Qed.

Lemma In_update_first (f : SessionData -> SessionData) (sid : string)
      (pool : list SessionData) (x : SessionData) :
  In x (update_first f sid pool) -> In x pool \/ exists s, In s pool /\ x = f s.
Proof.
  induction pool as [| y r IH]; intros Hin; [destruct Hin |].
  cbn [update_first] in Hin. destruct (String.eqb (sessionid y) sid).
  - destruct Hin as [<- | Hin].
    + right. exists y. split; [left; reflexivity | reflexivity].
    + left. right. exact Hin.
  - destruct Hin as [<- | Hin]; [left; left; reflexivity |].
    destruct (IH Hin) as [H | (s & Hs & ->)].
    + left. right. exact H.
    + right. exists s. split; [right; exact Hs | reflexivity].
Qed.

Section WithEnv.

Variable env : Env.

(** what [get_next_session] picks when it returns a session *)
Lemma get_next_session_pick (self : SessionManager) (now : Q)
      (ent : Entropy env) (fs : gmap string (bytes env))
      (r : SessionData) (self' : SessionManager) (fs' : gmap string (bytes env)) :
  get_next_session env self now ent fs = (Some r, self', fs') ->
  exists (i : nat) (s : SessionData),
    sessions self !! i = Some s
    /\ is_active s = true
    /\ (forall j z, sessions self !! j = Some z -> is_active z = true ->
                    key_ltb z s = false)
    /\ r = touch now s
    /\ self' = with_sessions self (<[i := touch now s]> (sessions self)).
Proof.
  unfold get_next_session.
  pose proof (sort_by_key_head_least (active_sessions (sessions self))) as Hleast.
  pose proof (fun z => sort_by_key_In z (active_sessions (sessions self))) as Hin.
  destruct (sort_by_key (active_sessions (sessions self))) as [| [i s] rest];
    intros E; [discriminate |].
  inversion E; subst. exists i, s.
  assert (Hs : In (i, s) (active_sessions (sessions self))).
  { apply Hin. left. reflexivity. }
  apply active_sessions_In in Hs. destruct Hs as [Hi Ha].
  split; [exact Hi |]. split; [exact Ha |]. split; [| split; reflexivity].
  intros j z Hj Hz. cbn [head_least] in Hleast.
  apply (Hleast (j, z)). apply Hin. apply active_sessions_In. split; assumption.
Qed.

(** and when it returns none *)
Lemma get_next_session_none (self : SessionManager) (now : Q)
      (ent : Entropy env) (fs : gmap string (bytes env))
      (self' : SessionManager) (fs' : gmap string (bytes env)) :
  get_next_session env self now ent fs = (None, self', fs') ->
  self' = self /\ fs' = fs
  /\ forall s, In s (sessions self) -> is_active s = false.
Proof.
  unfold get_next_session.
  pose proof (fun z => sort_by_key_In z (active_sessions (sessions self))) as Hin.
  destruct (sort_by_key (active_sessions (sessions self))) as [| [i s] rest];
    intros E; [| discriminate].
  inversion E; subst. split; [reflexivity |]. split; [reflexivity |].
  intros s Hs. destruct (is_active s) eqn:Ha; [| reflexivity].
  apply lookup_of_In in Hs. destruct Hs as [i Hi].
  exfalso. apply (proj2 (Hin (i, s))). apply active_sessions_In. split; assumption.
Qed.

End WithEnv.

(** X15: [add_session] with an id the pool already holds changes nothing, in
    memory or on disk.  With a new id it appends an active session with that
    id and label, created at the current time, never used and with zero
    counters, behind the sessions already there, and saves the pool. *)
Theorem add_session_cases (env : Env) (self : SessionManager) (sid : string)
        (un : option string) (now : Q) (ent : Entropy env)
        (fs : gmap string (bytes env)) :
  (In sid (ids (sessions self)) ->
   add_session env self sid un now ent fs = (self, fs))
  /\ (~ In sid (ids (sessions self)) ->
      let self' := with_sessions self
                     (sessions self ++ [mkSession sid un now 0.0 0 0 true]) in
      add_session env self sid un now ent fs
      = (self', _save_sessions_atomic env self' ent fs)).
Proof.
  unfold add_session. split; intros H.
  - apply existsb_ids in H. rewrite H. reflexivity.
  - destruct (existsb _ (sessions self)) eqn:E; [| reflexivity].
    apply existsb_ids in E. contradiction.
Qed.

Lemma add_session_cases_witness :
  let m := mkManager "sessions.json" Samples.pool_ABC in
  add_session (Samples.sample_env false) m "B" (Some "bob") 50.0 tt ∅ = (m, ∅).
Proof.
  apply (add_session_cases (Samples.sample_env false)
           (mkManager "sessions.json" Samples.pool_ABC) "B" (Some "bob") 50.0 tt ∅).
  cbn. tauto.
Defined.

(** X16: No call removes, reorders or renames a session, and a pool with pairwise
    distinct ids keeps them distinct: every call leaves the list of ids as it
    was, except [add_session] with a new id, which puts that id at the end.
    The sessions file's name never changes. *)
Theorem calls_keep_ids (env : Env) (self : SessionManager) (c : call) (now : Q)
        (ent : Entropy env) (fs : gmap string (bytes env)) :
  let self' := fst (perform env self c now ent fs) in
  sessions_file self' = sessions_file self
  /\ ids (sessions self')
     = match c with
       | AddSession sid _ =>
           if existsb (fun s => String.eqb (sessionid s) sid) (sessions self)
           then ids (sessions self)
           else ids (sessions self) ++ [sid]
       | _ => ids (sessions self)
       end
  /\ (NoDup (ids (sessions self)) -> NoDup (ids (sessions self'))).
Proof.
  cbn zeta.
  assert (H : sessions_file (fst (perform env self c now ent fs)) = sessions_file self
              /\ ids (sessions (fst (perform env self c now ent fs)))
                 = match c with
                   | AddSession sid _ =>
                       if existsb (fun s => String.eqb (sessionid s) sid) (sessions self)
                       then ids (sessions self)
                       else ids (sessions self) ++ [sid]
                   | _ => ids (sessions self)
                   end).
  { destruct c as [sid un | | sid | sid | sid]; cbn [perform].
    - unfold add_session.
      destruct (existsb _ (sessions self)); cbn [fst]; [split; reflexivity |].
      split; [reflexivity |]. unfold ids. cbn [with_sessions sessions].
      rewrite List.map_app. reflexivity.
    - destruct (get_next_session env self now ent fs) as [[[r |] self'] fs'] eqn:E;
        cbn [fst].
      + apply get_next_session_pick in E.
        destruct E as (i & s & Hi & _ & _ & _ & ->).
        split; [reflexivity |]. cbn [with_sessions sessions].
        apply (ids_insert _ i s); [exact Hi | reflexivity].
      + apply get_next_session_none in E. destruct E as (-> & _ & _).
        split; reflexivity.
    - cbn [mark_session_success fst with_sessions sessions sessions_file].
      split; [reflexivity | apply ids_update_first; reflexivity].
    - cbn [mark_session_failure fst with_sessions sessions sessions_file].
      split; [reflexivity | apply ids_update_first; reflexivity].
    - cbn [reactivate_session fst with_sessions sessions sessions_file].
      split; [reflexivity | apply ids_update_first; reflexivity]. }
  destruct H as [Hfile Hids]. split; [exact Hfile |]. split; [exact Hids |].
  intros Hnd. rewrite Hids. destruct c as [sid un | | sid | sid | sid]; try exact Hnd.
  destruct (existsb _ (sessions self)) eqn:E; [exact Hnd |].
  apply NoDup_app. split; [exact Hnd |]. split; [| apply NoDup_singleton].
  intros x Hx Hx'. apply list_elem_of_In in Hx. apply list_elem_of_In in Hx'.
  destruct Hx' as [<- | []]. apply existsb_ids in Hx. congruence.
Qed.

Lemma calls_keep_ids_witness :
  NoDup (ids (sessions (fst (perform (Samples.sample_env false)
                               (mkManager "sessions.json" Samples.pool_ABC)
                               (AddSession "E" None) 50.0 tt ∅)))).
Proof.
  apply (calls_keep_ids (Samples.sample_env false)
           (mkManager "sessions.json" Samples.pool_ABC) (AddSession "E" None) 50.0 tt ∅).
  cbn. repeat constructor; rewrite ?list_elem_of_In; cbn; intuition discriminate.
Defined.

Lemma well_formed_updates (now : Q) (s : SessionData) :
  well_formed s ->
  well_formed (on_success s) /\ well_formed (on_failure s)
  /\ well_formed (on_reactivate s) /\ well_formed (touch now s).
Proof.
  unfold well_formed. intros (Hs & Hf & Hi).
  repeat split;
    cbn [on_success on_failure on_reactivate touch success_count failure_count is_active];
    try lia; try discriminate; try exact Hi.
  destruct (Z.geb_spec (failure_count s + 1) 5) as [H5 | H5]; [lia |].
  intros Hin. specialize (Hi Hin). lia.
Qed.

(** X17: Every call keeps the pool well formed: success and failure counts stay
    non-negative, and a session is inactive only with at least five failures
    on record. *)
Theorem calls_keep_well_formed (env : Env) (self : SessionManager) (c : call)
        (now : Q) (ent : Entropy env) (fs : gmap string (bytes env)) :
  (forall s, In s (sessions self) -> well_formed s) ->
  forall s, In s (sessions (fst (perform env self c now ent fs))) -> well_formed s.
Proof.
  intros Hwf x Hx.
  assert (Hupd : forall f sid,
             (forall s, well_formed s -> well_formed (f s)) ->
             In x (update_first f sid (sessions self)) -> well_formed x).
  { intros f sid Hf Hin. apply In_update_first in Hin.
    destruct Hin as [Hin | (s & Hs & ->)]; [apply Hwf; exact Hin |].
    apply Hf, Hwf. exact Hs. }
  destruct c as [sid un | | sid | sid | sid]; cbn [perform] in Hx.
  - unfold add_session in Hx. destruct (existsb _ (sessions self)); cbn in Hx.
    + apply Hwf. exact Hx.
    + apply in_app_or in Hx. destruct Hx as [Hx | [<- | []]]; [apply Hwf; exact Hx |].
      unfold well_formed. cbn. repeat split; try lia; try discriminate.
  - destruct (get_next_session env self now ent fs) as [[[r |] self'] fs'] eqn:E;
      cbn [fst] in Hx.
    + apply get_next_session_pick in E. destruct E as (i & s & Hi & _ & _ & _ & ->).
      cbn [with_sessions sessions] in Hx. apply In_insert in Hx.
      destruct Hx as [-> | Hx]; [| apply Hwf; exact Hx].
      apply well_formed_updates, Hwf. apply lookup_of_In. exists i. exact Hi.
    + apply get_next_session_none in E. destruct E as (-> & _ & _).
      apply Hwf. exact Hx.
  - apply (Hupd on_success sid); [| exact Hx].
    intros s Hs. apply (well_formed_updates now s Hs).
  - apply (Hupd on_failure sid); [| exact Hx].
    intros s Hs. apply (well_formed_updates now s Hs).
  - apply (Hupd on_reactivate sid); [| exact Hx].
    intros s Hs. apply (well_formed_updates now s Hs).
Qed.

Lemma calls_keep_well_formed_witness :
  well_formed (mkSession "D" None 1.0 3.0 1 4 true).
Proof.
  apply (calls_keep_well_formed (Samples.sample_env false)
           (mkManager "sessions.json" [Samples.session_spent])
           (MarkSuccess "D") 9.0 tt ∅).
  - intros s [<- | []]. unfold well_formed. cbn. repeat split; try lia; try discriminate.
  - left. reflexivity.
Defined.

Lemma iter_on_failure (s : SessionData) (n : nat) :
  failure_count (Nat.iter n on_failure s) = (failure_count s + Z.of_nat n)%Z
  /\ success_count (Nat.iter n on_failure s) = success_count s
  /\ is_active (Nat.iter (S n) on_failure s)
     = is_active s && (failure_count s + Z.of_nat (S n) <? 5)%Z.
Proof.
  induction n as [| n (Hf & Hs & Ha)].
  - change (Nat.iter 0 on_failure s) with s.
    change (Nat.iter 1 on_failure s) with (on_failure s).
    cbn [on_failure failure_count success_count is_active].
    split; [lia |]. split; [reflexivity |].
    replace (failure_count s + Z.of_nat 1)%Z with (failure_count s + 1)%Z by lia.
    destruct (Z.geb_spec (failure_count s + 1) 5);
      destruct (Z.ltb_spec (failure_count s + 1) 5); try lia;
      destruct (is_active s); reflexivity.
  - change (Nat.iter (S (S n)) on_failure s)
      with (on_failure (Nat.iter (S n) on_failure s)).
    change (Nat.iter (S n) on_failure s) with (on_failure (Nat.iter n on_failure s)) at 1 2.
    cbn [on_failure failure_count success_count is_active].
    rewrite Hf, Hs. split; [lia |]. split; [reflexivity |].
    change (on_failure (Nat.iter n on_failure s)) with (Nat.iter (S n) on_failure s).
    rewrite Ha.
    change (failure_count (Nat.iter (S n) on_failure s))
      with (failure_count (on_failure (Nat.iter n on_failure s))).
    cbn [on_failure failure_count]. rewrite Hf.
    destruct (Z.geb_spec (failure_count s + Z.of_nat n + 1 + 1) 5);
      destruct (Z.ltb_spec (failure_count s + Z.of_nat (S (S n))) 5);
      destruct (Z.ltb_spec (failure_count s + Z.of_nat (S n)) 5); try lia;
      destruct (is_active s); reflexivity.
Qed.

(** X18: [mark_session_failure] on an id of the pool replaces, in place, the first
    session with that id by the same session with one more failure, inactive
    once the new count is 5 or more, and saves; positions and every other
    session stay.  Repeated, the failures add up and the session is active
    only while it was active and the count is below 5: a new session is
    still active after four failures and inactive after the fifth. *)
Theorem mark_failure_threshold (env : Env) (self : SessionManager)
        (sid : string) (i : nat) (s : SessionData)
        (ent : Entropy env) (fs : gmap string (bytes env)) :
  first_with sid (sessions self) i s ->
  let self' := with_sessions self (<[i := on_failure s]> (sessions self)) in
  mark_session_failure env self sid ent fs
  = (self', _save_sessions_atomic env self' ent fs)
  /\ sessions self' !! i = Some (on_failure s)
  /\ (forall j, j <> i -> sessions self' !! j = sessions self !! j)
  /\ List.length (sessions self') = List.length (sessions self)
  /\ (forall n : nat,
         failure_count (Nat.iter n on_failure s) = (failure_count s + Z.of_nat n)%Z
         /\ success_count (Nat.iter n on_failure s) = success_count s
         /\ is_active (Nat.iter (S n) on_failure s)
            = is_active s && (failure_count s + Z.of_nat (S n) <? 5)%Z).
Proof.
  intros Hfirst. cbn zeta. unfold mark_session_failure.
  rewrite (update_first_found _ sid (sessions self) i s Hfirst).
  destruct Hfirst as (Hi & _ & _).
  split; [reflexivity |]. cbn [with_sessions sessions].
  split; [apply list_lookup_insert_eq; eapply lookup_lt_Some; exact Hi |].
  split; [intros j Hj; apply list_lookup_insert_ne; congruence |].
  split; [apply length_insert |].
  intros n. apply iter_on_failure.
Qed.

Lemma mark_failure_threshold_witness :
  let fresh := mkSession "N" None 1.0 0.0 0 0 true in
  is_active (Nat.iter 4 on_failure fresh) = true
  /\ is_active (Nat.iter 5 on_failure fresh) = false.
Proof.
  cbn zeta.
  destruct (mark_failure_threshold (Samples.sample_env false)
              (mkManager "sessions.json" [mkSession "N" None 1.0 0.0 0 0 true])
              "N" 0%nat (mkSession "N" None 1.0 0.0 0 0 true) tt ∅)
    as (_ & _ & _ & _ & Hn).
  - split; [reflexivity |]. split; [reflexivity |]. intros j s' Hj. lia.
  - split; [exact (proj2 (proj2 (Hn 3%nat))) | exact (proj2 (proj2 (Hn 4%nat)))].
Defined.

Lemma ids_lookup (pool : list SessionData) :
  forall (i : nat) (s : SessionData),
    pool !! i = Some s -> ids pool !! i = Some (sessionid s).
Proof.
  unfold ids. induction pool as [| x r IH]; intros i s Hi; [destruct i; discriminate |].
  destruct i as [| i]; cbn in Hi |- *.
  - inversion Hi; subst. reflexivity.
  - apply IH. exact Hi.
Qed.

Lemma same_id_same_position (pool : list SessionData) (i j : nat)
      (a b : SessionData) :
  NoDup (ids pool) ->
  pool !! i = Some a -> pool !! j = Some b -> sessionid a = sessionid b -> i = j.
Proof.
  intros Hnd Hi Hj Hid. apply ids_lookup in Hi. apply ids_lookup in Hj.
  rewrite Hid in Hi. exact (NoDup_lookup _ _ _ _ Hnd Hi Hj).
Qed.

(** X19: Once a failure has taken a session to five failures or more,
    [get_next_session] does not hand out that id, whatever the time and the
    files, in a pool with distinct ids. *)
Theorem deactivated_not_served (env : Env) (self : SessionManager)
        (sid : string) (i : nat) (s : SessionData)
        (ent ent' : Entropy env) (fs fs' : gmap string (bytes env))
        (now : Q) (r : SessionData) :
  NoDup (ids (sessions self)) ->
  first_with sid (sessions self) i s ->
  (4 <= failure_count s)%Z ->
  fst (fst (get_next_session env
              (fst (mark_session_failure env self sid ent fs)) now ent' fs'))
  = Some r ->
  sessionid r <> sid.
Proof.
  intros Hnd Hfirst H4. unfold mark_session_failure.
  rewrite (update_first_found _ sid (sessions self) i s Hfirst). cbn [fst].
  destruct Hfirst as (Hi & Hsid & _).
  destruct (get_next_session env _ now ent' fs') as [[o self2] fs2] eqn:E.
  cbn [fst]. intros ->.
  apply get_next_session_pick in E.
  destruct E as (j & z & Hj & Hz & _ & -> & _).
  cbn [with_sessions sessions] in Hj. cbn [touch sessionid]. intros Hr.
  destruct (Nat.eq_dec i j) as [<- | Hne].
  - rewrite list_lookup_insert_eq in Hj by (eapply lookup_lt_Some; exact Hi).
    inversion Hj; subst z. cbn [on_failure is_active] in Hz.
    destruct (Z.geb_spec (failure_count s + 1) 5); [discriminate | lia].
  - rewrite list_lookup_insert_ne in Hj by exact Hne.
    apply Hne. apply (same_id_same_position (sessions self) i j s z Hnd Hi Hj).
    congruence.
Qed.

Lemma deactivated_not_served_witness :
  sessionid (mkSession "A" None 1.0 77.0 0 2 true) <> "C"%string.
Proof.
  apply (deactivated_not_served (Samples.sample_env false)
           (mkManager "sessions.json"
              [Samples.session_A; mkSession "C" None 1.0 20.0 0 4 true])
           "C" 1%nat (mkSession "C" None 1.0 20.0 0 4 true) tt tt ∅ ∅ 77.0).
  - cbn. repeat constructor; rewrite ?list_elem_of_In; cbn; intuition discriminate.
  - split; [reflexivity |]. split; [reflexivity |].
    intros j s' Hj Hs'. destruct j as [| j]; [| lia].
    cbn in Hs'. inversion Hs'; subst s'. discriminate.
  - cbn. lia.
  - reflexivity.
Defined.

(** X20: Rotation: when [get_next_session] has returned a session and the pool
    holds another active session with as few failures, last used before the
    time of that call, the next call returns a session, and it is not the
    same one. *)
Theorem next_call_rotates (env : Env) (self self1 : SessionManager)
        (now1 now2 : Q) (ent ent2 : Entropy env)
        (fs fs1 : gmap string (bytes env)) (r1 : SessionData)
        (j : nat) (s2 : SessionData) :
  NoDup (ids (sessions self)) ->
  get_next_session env self now1 ent fs = (Some r1, self1, fs1) ->
  sessions self !! j = Some s2 ->
  is_active s2 = true ->
  sessionid s2 <> sessionid r1 ->
  failure_count s2 = failure_count r1 ->
  (last_used s2 < now1)%Q ->
  exists r2 self2 fs2,
    get_next_session env self1 now2 ent2 fs1 = (Some r2, self2, fs2)
    /\ sessionid r2 <> sessionid r1.
Proof.
  intros Hnd E1 Hj Ha2 Hid Hfc Hlu.
  apply get_next_session_pick in E1.
  destruct E1 as (i & s1 & Hi & Ha1 & _ & -> & ->).
  assert (Hij : i <> j).
  { intros <-. rewrite Hi in Hj. inversion Hj; subst s2. apply Hid. reflexivity. }
  assert (Hj1 : <[i := touch now1 s1]> (sessions self) !! j = Some s2).
  { rewrite list_lookup_insert_ne by exact Hij. exact Hj. }
  destruct (get_next_session env
              (with_sessions self (<[i := touch now1 s1]> (sessions self)))
              now2 ent2 fs1) as [[[r2 |] self2] fs2] eqn:E2.
  - exists r2, self2, fs2. split; [reflexivity |].
    apply get_next_session_pick in E2.
    destruct E2 as (k & z & Hk & Hz & Hmin & -> & _).
    cbn [with_sessions sessions] in Hk, Hmin. cbn [touch sessionid]. intros Hsame.
    destruct (Nat.eq_dec i k) as [<- | Hne].
    + rewrite list_lookup_insert_eq in Hk by (eapply lookup_lt_Some; exact Hi).
      inversion Hk; subst z.
      specialize (Hmin j s2 Hj1 Ha2). apply key_ltb_false in Hmin.
      cbn [touch failure_count last_used] in Hmin, Hfc.
      destruct Hmin as [Hlt | [_ Hle]]; [lia |].
      exact (Qlt_not_le _ _ Hlu Hle).
    + rewrite list_lookup_insert_ne in Hk by exact Hne.
      apply Hne. apply (same_id_same_position (sessions self) i k s1 z Hnd Hi Hk).
      symmetry. exact Hsame.
  - exfalso. apply get_next_session_none in E2. destruct E2 as (_ & _ & Hall).
    cbn [with_sessions sessions] in Hall.
    assert (Hin : In s2 (<[i := touch now1 s1]> (sessions self))).
    { apply lookup_of_In. exists j. exact Hj1. }
    rewrite (Hall s2 Hin) in Ha2. discriminate.
Qed.

Lemma next_call_rotates_witness :
  exists r2 self2 fs2,
    get_next_session (Samples.sample_env false)
      (with_sessions (mkManager "sessions.json" [Samples.session_A; Samples.session_B])
         [Samples.session_A; touch 30.0 Samples.session_B])
      31.0 tt
      (_save_sessions_atomic (Samples.sample_env false)
         (with_sessions (mkManager "sessions.json" [Samples.session_A; Samples.session_B])
            [Samples.session_A; touch 30.0 Samples.session_B]) tt ∅)
    = (Some r2, self2, fs2)
    /\ sessionid r2 <> "B"%string.
Proof.
  apply (next_call_rotates (Samples.sample_env false)
           (mkManager "sessions.json" [Samples.session_A; Samples.session_B])
           _ 30.0 31.0 tt tt ∅ _ (touch 30.0 Samples.session_B)
           0%nat Samples.session_A).
  - cbn. repeat constructor; rewrite ?list_elem_of_In; cbn; intuition discriminate.
  - reflexivity.
  - reflexivity.
  - reflexivity.
  - discriminate.
  - reflexivity.
  - reflexivity.
Defined.

Lemma sum_Z_insert (f : SessionData -> Z) (pool : list SessionData) :
  forall (i : nat) (s s' : SessionData),
    pool !! i = Some s ->
    sum_Z (List.map f (<[i := s']> pool))
    = (sum_Z (List.map f pool) - f s + f s')%Z.
Proof.
  unfold sum_Z. induction pool as [| x r IH]; intros i s s' Hi;
    [destruct i; discriminate |].
  destruct i as [| i]; cbn in Hi.
  - inversion Hi; subst. cbn. lia.
  - change (<[S i := s']> (x :: r)) with (x :: <[i := s']> r).
    cbn [List.map List.fold_right]. rewrite (IH i s s' Hi). lia.
Qed.

Lemma no_active_length (pool : list SessionData) :
  List.length (List.filter is_active pool) = 0%nat
  <-> forall s, In s pool -> is_active s = false.
Proof.
  induction pool as [| x r IH]; cbn [List.filter].
  - split; [intros _ s [] | reflexivity].
  - destruct (is_active x) eqn:Ex; cbn [List.length].
    + split; [discriminate |]. intros H. specialize (H x (or_introl eq_refl)). congruence.
    + rewrite IH. split.
      * intros H s [<- | Hs]; [exact Ex | apply H; exact Hs].
      * intros H s Hs. apply H. right. exact Hs.
Qed.

(** X21: [get_session_stats] counts every session of the pool and at most that
    many as active, with one record per session; it reports no active
    session exactly when [get_next_session] has none to return. *)
Theorem stats_active_and_rotation (env : Env) (self : SessionManager) (now : Q)
        (ent : Entropy env) (fs : gmap string (bytes env)) :
  let st := get_session_stats self in
  total_sessions st = List.length (sessions self)
  /\ List.length (stats_sessions st) = total_sessions st
  /\ (stats_active_sessions st <= total_sessions st)%nat
  /\ (stats_active_sessions st = 0%nat
      <-> fst (fst (get_next_session env self now ent fs)) = None).
Proof.
  cbn [get_session_stats total_sessions stats_sessions stats_active_sessions].
  split; [reflexivity |]. split; [apply List.length_map |].
  split; [apply List.filter_length_le |].
  rewrite no_active_length.
  destruct (get_next_session env self now ent fs) as [[[r |] self'] fs'] eqn:E;
    cbn [fst].
  - apply get_next_session_pick in E. destruct E as (i & s & Hi & Ha & _).
    split; [| discriminate]. intros Hall.
    assert (Hin : In s (sessions self)) by (apply lookup_of_In; exists i; exact Hi).
    rewrite (Hall s Hin) in Ha. discriminate.
  - apply get_next_session_none in E. destruct E as (_ & _ & Hall).
    split; [reflexivity | intros _; exact Hall].
Qed.

(** X22: The totals of [get_session_stats] follow the reports: on an id of the
    pool, a success adds one to the total of successes and takes one off the
    total of failures unless that session had none, a failure adds one to
    the total of failures, and a reactivation takes the session's failures
    off the total; the number of sessions stays.  The session's failure
    count is taken not to be negative. *)
Theorem stats_totals_after_marks (env : Env) (self : SessionManager)
        (sid : string) (i : nat) (s : SessionData)
        (ent : Entropy env) (fs : gmap string (bytes env)) :
  first_with sid (sessions self) i s ->
  (0 <= failure_count s)%Z ->
  let st := get_session_stats self in
  let after_success :=
    get_session_stats (fst (mark_session_success env self sid ent fs)) in
  let after_failure :=
    get_session_stats (fst (mark_session_failure env self sid ent fs)) in
  let after_reactivate :=
    get_session_stats (fst (reactivate_session env self sid ent fs)) in
  total_successes after_success = (total_successes st + 1)%Z
  /\ total_failures after_success
     = (total_failures st - (if (failure_count s >? 0)%Z then 1 else 0))%Z
  /\ total_successes after_failure = total_successes st
  /\ total_failures after_failure = (total_failures st + 1)%Z
  /\ total_successes after_reactivate = total_successes st
  /\ total_failures after_reactivate = (total_failures st - failure_count s)%Z
  /\ total_sessions after_success = total_sessions st
  /\ total_sessions after_failure = total_sessions st
  /\ total_sessions after_reactivate = total_sessions st.
Proof.
  intros Hfirst Hfc. cbn zeta.
  unfold mark_session_success, mark_session_failure, reactivate_session.
  rewrite !(update_first_found _ sid (sessions self) i s Hfirst).
  destruct Hfirst as (Hi & _ & _).
  cbn [fst get_session_stats total_successes total_failures total_sessions
         with_sessions sessions].
  rewrite !(sum_Z_insert _ (sessions self) i s _ Hi), !length_insert.
  cbn [on_success on_failure on_reactivate success_count failure_count].
  destruct (Z.gtb_spec (failure_count s) 0); repeat split; lia.
Qed.

Lemma stats_totals_after_marks_witness :
  total_successes
    (get_session_stats
       (fst (mark_session_success (Samples.sample_env false)
               (mkManager "sessions.json" Samples.pool_ABC) "C" tt ∅)))
  = (total_successes (get_session_stats (mkManager "sessions.json" Samples.pool_ABC))
     + 1)%Z.
Proof.
  apply (stats_totals_after_marks (Samples.sample_env false)
           (mkManager "sessions.json" Samples.pool_ABC) "C" 2%nat Samples.session_C tt ∅).
  - split; [reflexivity |]. split; [reflexivity |].
    intros j s' Hj Hs'.
    destruct j as [| [| j]]; [| | lia]; cbn in Hs'; inversion Hs'; subst s'; discriminate.
  - cbn. lia.
Defined.

End PoolMore.

(** ** SessionManager: files *)

Module PersistenceMore.
Import Sessions PoolFacts ManagerFacts PoolMore.

(** X23: [from_dict] reads a record back from its own dictionary even with other
    keys added after it, and fills every key but the id that a dictionary
    lacks with the dataclass's defaults: no label, times 0.0, counters 0,
    active. *)
Theorem from_dict_defaults_and_extras :
  (forall (s : SessionData) (fields extra : list (string * json)),
      to_dict s = JObj fields ->
      from_dict (JObj (fields ++ extra)) = Value s)
  /\ (forall sid : string,
         from_dict (JObj [("sessionid"%string, JStr sid)])
         = Value (mkSession sid None 0.0 0.0 0 0 true))
  /\ (forall d : json,
         match d with JObj _ => True | _ => from_dict d = PyRaise end).
Proof.
  split; [| split].
  - intros s fields extra E. destruct s as [sid [un |] ca lu sc fc ia];
      inversion E; subst fields; reflexivity.
  - intros sid. reflexivity.
  - intros d. destruct d; reflexivity || exact I.
Qed.

Lemma from_dict_defaults_and_extras_witness :
  from_dict (JObj [("sessionid"%string, JStr "C");
                   ("username"%string, JStr "carol");
                   ("created_at"%string, JFloat 1.0);
                   ("last_used"%string, JFloat 20.0);
                   ("success_count"%string, JInt 0);
                   ("failure_count"%string, JInt 1);
                   ("is_active"%string, JBool true);
                   ("note"%string, JStr "kept by another tool")])
  = Value Samples.session_C.
Proof.
  exact (proj1 from_dict_defaults_and_extras Samples.session_C _
           [("note"%string, JStr "kept by another tool")] eq_refl).
Defined.

Section WithEnv.

Variable env : Env.

(** [_get_fernet] a second time returns what it returned the first time and
    leaves the files as the first call left them. *)
Lemma get_fernet_twice (ent ent' : Entropy env) (fs : gmap string (bytes env)) :
  _get_fernet env ent' (snd (_get_fernet env ent fs)) = _get_fernet env ent fs.
Proof.
  unfold _get_fernet. destruct (USE_ENCRYPTION env); cbn [negb]; [| reflexivity].
  destruct (fs !! KEY_FILE env) as [key |] eqn:E.
  - destruct (fernet_accepts env key) eqn:Ea; cbn [snd]; rewrite E, Ea; reflexivity.
  - destruct (fernet_accepts env (generate_key env ent)) eqn:Ea; cbn [snd];
      rewrite lookup_insert_eq, Ea; reflexivity.
Qed.

Lemma get_fernet_frame (ent : Entropy env) (fs : gmap string (bytes env))
      (path : string) :
  path <> KEY_FILE env ->
  snd (_get_fernet env ent fs) !! path = fs !! path.
Proof.
  intros Hne. unfold _get_fernet. destruct (USE_ENCRYPTION env); cbn [negb];
    [| reflexivity].
  destruct (fs !! KEY_FILE env) as [key |] eqn:E.
  - destruct (fernet_accepts env key); reflexivity.
  - destruct (fernet_accepts env (generate_key env ent)); cbn [snd];
      apply lookup_insert_ne; congruence.
Qed.

Lemma get_fernet_keeps_key (ent : Entropy env) (fs : gmap string (bytes env))
      (key : bytes env) :
  fs !! KEY_FILE env = Some key ->
  snd (_get_fernet env ent fs) = fs.
Proof.
  intros E. unfold _get_fernet. destruct (USE_ENCRYPTION env); cbn [negb];
    [| reflexivity].
  rewrite E. destruct (fernet_accepts env key); reflexivity.
Qed.

End WithEnv.

(** X24: The encryption key is stable: once [_get_fernet] has run, running it
    again, with whatever randomness, gives the same cipher (or the same
    refusal) and writes nothing; it never touches a file other than the key
    file, nor an existing key file; and with encryption off it returns no
    cipher and touches no file at all. *)
Theorem key_is_stable (env : Env) (ent ent' : Entropy env)
        (fs : gmap string (bytes env)) :
  _get_fernet env ent' (snd (_get_fernet env ent fs)) = _get_fernet env ent fs
  /\ (forall path, path <> KEY_FILE env ->
                   snd (_get_fernet env ent fs) !! path = fs !! path)
  /\ (forall key, fs !! KEY_FILE env = Some key ->
                  snd (_get_fernet env ent fs) = fs)
  /\ (USE_ENCRYPTION env = false -> _get_fernet env ent fs = (NoFernet, fs)).
Proof.
  split; [apply get_fernet_twice |]. split; [apply get_fernet_frame |].
  split; [apply get_fernet_keeps_key |].
  intros Hoff. unfold _get_fernet. rewrite Hoff. reflexivity.
Qed.

Lemma key_is_stable_witness :
  _get_fernet (Samples.sample_env false) tt ∅ = (NoFernet, ∅).
Proof.
  exact (proj2 (proj2 (proj2 (key_is_stable (Samples.sample_env false) tt tt ∅)))
           eq_refl).
Defined.

(** X25: A save writes to the sessions file, the temporary file and, when it has
    to create it, the key file, and to nothing else: every other file keeps
    its content. *)
Theorem save_touches_only_its_files (env : Env) (self : SessionManager)
        (ent : Entropy env) (fs : gmap string (bytes env)) (path : string) :
  path <> sessions_file self ->
  path <> tmp_path_of (sessions_file self) ->
  path <> KEY_FILE env ->
  _save_sessions_atomic env self ent fs !! path = fs !! path.
Proof.
  intros Hfile Htmp Hkey. unfold _save_sessions_atomic.
  pose proof (get_fernet_frame env ent fs path Hkey) as Hframe.
  destruct (_get_fernet env ent fs) as [[| key |] fs1]; cbn [snd] in Hframe.
  - rewrite replace_written, lookup_insert_ne, lookup_delete_ne by congruence.
    exact Hframe.
  - rewrite replace_written, lookup_insert_ne, lookup_delete_ne by congruence.
    exact Hframe.
  - exact Hframe.
Qed.

Lemma save_touches_only_its_files_witness :
  _save_sessions_atomic (Samples.sample_env true)
    (mkManager "sessions.json" Samples.pool_ABC) tt
    {["notes.txt"%string := JStr "mine"]} !! "notes.txt"%string
  = Some (JStr "mine").
Proof.
  rewrite (save_touches_only_its_files (Samples.sample_env true)
             (mkManager "sessions.json" Samples.pool_ABC) tt
             {["notes.txt"%string := JStr "mine"]} "notes.txt");
    [apply lookup_singleton_eq | discriminate | discriminate | discriminate].
Defined.

(** X26: With encryption on and a key file holding a key that [Fernet] rejects,
    a save writes nothing: a report still updates the pool in memory, the
    files stay as they were, and a load gives the empty pool. *)
Theorem rejected_key_stops_persistence (env : Env) (self : SessionManager)
        (sid : string) (key : bytes env) (ent : Entropy env)
        (fs : gmap string (bytes env)) :
  USE_ENCRYPTION env = true ->
  fs !! KEY_FILE env = Some key ->
  fernet_accepts env key = false ->
  _save_sessions_atomic env self ent fs = fs
  /\ mark_session_success env self sid ent fs
     = (with_sessions self (update_first on_success sid (sessions self)), fs)
  /\ _load_sessions env (sessions_file self) ent fs = (Some [], fs).
Proof.
  intros Hon Hk Hrej.
  assert (Hget : forall e, _get_fernet env e fs = (FernetRaises, fs)).
  { intros e. unfold _get_fernet. rewrite Hon, Hk, Hrej. reflexivity. }
  assert (Hsave : forall m, _save_sessions_atomic env m ent fs = fs).
  { intros m. unfold _save_sessions_atomic. rewrite Hget. reflexivity. }
  split; [apply Hsave |]. split.
  - unfold mark_session_success. rewrite Hsave. reflexivity.
  - unfold _load_sessions. destruct (fs !! sessions_file self); [| reflexivity].
    rewrite Hget. reflexivity.
Qed.

Lemma rejected_key_stops_persistence_witness :
  let fs : gmap string json := {["session_key.key"%string := JNull]} in
  let m := mkManager "sessions.json" Samples.pool_ABC in
  _save_sessions_atomic Samples.strict_env m tt fs = fs
  /\ mark_session_success Samples.strict_env m "A" tt fs
     = (with_sessions m (update_first on_success "A" (sessions m)), fs)
  /\ _load_sessions Samples.strict_env (sessions_file m) tt fs = (Some [], fs).
Proof.
  apply (rejected_key_stops_persistence Samples.strict_env
           (mkManager "sessions.json" Samples.pool_ABC) "A" JNull tt
           {["session_key.key"%string := JNull]});
    [reflexivity | apply lookup_singleton_eq | reflexivity].
Defined.

(** X27: A load degrades to the empty pool instead of failing: when the sessions
    file is missing (nothing is read or written), when its content is not
    JSON, when the document is not a list of objects, and, with encryption
    on, when the content does not decrypt under the key of the key file. *)
Theorem load_degrades_to_empty (env : Env) (file : string) (ent : Entropy env)
        (fs : gmap string (bytes env)) :
  (fs !! file = None ->
   _load_sessions env file ent fs = (Some [], fs)
   /\ init env file ent fs = (Some (mkManager file []), fs))
  /\ (forall raw,
         USE_ENCRYPTION env = false -> fs !! file = Some raw ->
         json_loads env raw = None ->
         _load_sessions env file ent fs = (Some [], fs))
  /\ (forall raw data,
         USE_ENCRYPTION env = false -> fs !! file = Some raw ->
         json_loads env raw = Some data ->
         match data with
         | JArr items => exists d, In d items /\ from_dict d = PyRaise
         | JObj [] | JStr EmptyString => False
         | _ => True
         end ->
         _load_sessions env file ent fs = (Some [], fs))
  /\ (forall raw key,
         USE_ENCRYPTION env = true -> fs !! KEY_FILE env = Some key ->
         fernet_accepts env key = true -> fs !! file = Some raw ->
         fernet_decrypt env key raw = None ->
         _load_sessions env file ent fs = (Some [], fs)).
Proof.
  split; [| split; [| split]].
  - intros Hnone. unfold init, _load_sessions. rewrite Hnone. split; reflexivity.
  - intros raw Hoff Hraw Hbad. unfold _load_sessions, _get_fernet.
    rewrite Hraw, Hoff. cbn [negb]. rewrite Hraw, Hbad. reflexivity.
  - intros raw data Hoff Hraw Hdoc Hshape. unfold _load_sessions, _get_fernet.
    rewrite Hraw, Hoff. cbn [negb]. rewrite Hraw, Hdoc.
    assert (Hr : sessions_of_data data = PyRaise).
    { destruct data as [| b | z | q | str | items | fields]; try reflexivity.
      - destruct str; [contradiction | reflexivity].
      - destruct Hshape as (d & Hin & Hd). cbn [sessions_of_data].
        clear Hdoc. induction items as [| x r IH]; [destruct Hin |].
        cbn [from_dicts]. destruct Hin as [-> | Hin].
        + rewrite Hd. reflexivity.
        + rewrite (IH Hin). destruct (from_dict x); reflexivity.
      - destruct fields; [contradiction | reflexivity]. }
    rewrite Hr. reflexivity.
  - intros raw key Hon Hk Hacc Hraw Hdec. unfold _load_sessions.
    rewrite Hraw, (get_fernet_existing env ent fs key Hon Hk Hacc), Hraw, Hdec.
    reflexivity.
Qed.

Lemma load_degrades_to_empty_witness :
  _load_sessions (Samples.sample_env false) "sessions.json" tt
    {["sessions.json"%string := JArr [to_dict Samples.session_A; JStr "oops"]]}
  = (Some [], {["sessions.json"%string := JArr [to_dict Samples.session_A; JStr "oops"]]}).
Proof.
  destruct (load_degrades_to_empty (Samples.sample_env false) "sessions.json" tt
              {["sessions.json"%string := JArr [to_dict Samples.session_A; JStr "oops"]]})
    as (_ & _ & H & _).
  apply (H (JArr [to_dict Samples.session_A; JStr "oops"])
           (JArr [to_dict Samples.session_A; JStr "oops"]));
    [reflexivity | apply lookup_singleton_eq | reflexivity |].
  exists (JStr "oops"). split; [right; left; reflexivity | reflexivity].
Defined.

(** what loading a saved pool gives back, for the interface's round-trip
    laws *)
Lemma save_then_load (env : Env) (self : SessionManager)
      (ent ent' : Entropy env) (fs : gmap string (bytes env)) :
  (forall d, json_loads env (json_dumps env d) = Some d) ->
  (USE_ENCRYPTION env = true ->
     (forall e k p, fernet_accepts env k = true ->
                    fernet_decrypt env k (fernet_encrypt env e k p) = Some p)
     /\ (forall e, fernet_accepts env (generate_key env e) = true)
     /\ (forall k, fs !! KEY_FILE env = Some k -> fernet_accepts env k = true)
     /\ KEY_FILE env <> sessions_file self
     /\ KEY_FILE env <> tmp_path_of (sessions_file self)) ->
  fst (_load_sessions env (sessions_file self) ent'
         (_save_sessions_atomic env self ent fs))
  = Some (sessions self)
  /\ (forall k, _save_sessions_atomic env self ent fs !! KEY_FILE env = Some k ->
                USE_ENCRYPTION env = true -> fernet_accepts env k = true).
Proof.
  intros Hjson Henc. destruct (USE_ENCRYPTION env) eqn:Hmode.
  - destruct (Henc eq_refl) as (Hdec & Hgen & Hkey & Hne1 & Hne2).
    destruct (get_fernet_key env ent fs Hmode Hgen Hkey)
      as (key & fs1 & Hget & Hk1 & Hacc & Hsame).
    unfold _save_sessions_atomic. rewrite Hget, replace_written.
    assert (Hk2 : <[sessions_file self := fernet_encrypt env ent key
                      (json_dumps env (JArr (List.map to_dict (sessions self))))]>
                    (delete (tmp_path_of (sessions_file self)) fs1)
                  !! KEY_FILE env = Some key).
    { rewrite lookup_insert_ne by congruence.
      rewrite lookup_delete_ne by congruence. exact Hk1. }
    split.
    + erewrite load_encrypted with (key := key) (e0 := ent);
        [reflexivity | exact Hmode | exact Hjson | apply Hdec; exact Hacc
         | exact Hk2 | exact Hacc | apply lookup_insert_eq].
    + intros k Hk _. rewrite Hk2 in Hk. inversion Hk; subst k. exact Hacc.
  - rewrite (save_plain env self ent fs Hmode). split; [| discriminate].
    erewrite load_plain; [reflexivity | exact Hmode | exact Hjson
                          | apply lookup_insert_eq].
Qed.

(** X28: Restart safety: if loading the sessions file gives the manager's pool,
    then after any call loading it gives the pool the call left, so a
    manager built from the files afterwards resumes with the same sessions.
    This holds for the interface's round-trip laws, with encryption on or
    off. *)
Theorem calls_keep_disk_in_sync (env : Env) (self : SessionManager) (c : call)
        (now : Q) (ent : Entropy env) (fs : gmap string (bytes env)) :
  (forall d, json_loads env (json_dumps env d) = Some d) ->
  (USE_ENCRYPTION env = true ->
     (forall e k p, fernet_accepts env k = true ->
                    fernet_decrypt env k (fernet_encrypt env e k p) = Some p)
     /\ (forall e, fernet_accepts env (generate_key env e) = true)
     /\ (forall k, fs !! KEY_FILE env = Some k -> fernet_accepts env k = true)
     /\ KEY_FILE env <> sessions_file self
     /\ KEY_FILE env <> tmp_path_of (sessions_file self)) ->
  (forall e, fst (_load_sessions env (sessions_file self) e fs)
             = Some (sessions self)) ->
  forall e,
    fst (_load_sessions env (sessions_file (fst (perform env self c now ent fs))) e
           (snd (perform env self c now ent fs)))
    = Some (sessions (fst (perform env self c now ent fs))).
Proof.
  intros Hjson Henc Hsync e.
  assert (Hsaved : forall pool,
             fst (_load_sessions env (sessions_file self) e
                    (_save_sessions_atomic env (with_sessions self pool) ent fs))
             = Some pool).
  { intros pool.
    apply (save_then_load env (with_sessions self pool) ent e fs Hjson Henc). }
  destruct c as [sid un | | sid | sid | sid]; cbn [perform].
  - unfold add_session. destruct (existsb _ (sessions self)); cbn [fst snd].
    + apply Hsync.
    + apply Hsaved.
  - destruct (get_next_session env self now ent fs) as [[[r |] self'] fs'] eqn:E;
      cbn [fst snd].
    + pose proof E as E'. apply get_next_session_pick in E'.
      destruct E' as (i & s & _ & _ & _ & _ & ->).
      unfold get_next_session in E.
      destruct (sort_by_key (active_sessions (sessions self))) as [| [i' s'] rest];
        [discriminate |].
      inversion E; subst. apply Hsaved.
    + apply get_next_session_none in E. destruct E as (-> & -> & _). apply Hsync.
  - apply Hsaved.
  - apply Hsaved.
  - apply Hsaved.
Qed.

Lemma calls_keep_disk_in_sync_witness :
  let env := Samples.sample_env true in
  let m := mkManager "sessions.json" [] in
  fst (_load_sessions env "sessions.json" tt
         (snd (perform env m (AddSession "A" None) 5.0 tt ∅)))
  = Some [mkSession "A" None 5.0 0.0 0 0 true].
Proof.
  apply (calls_keep_disk_in_sync (Samples.sample_env true)
           (mkManager "sessions.json" []) (AddSession "A" None) 5.0 tt ∅).
  - intros d. reflexivity.
  - intros _. split; [| split; [| split; [| split]]].
    + intros e k p _. reflexivity.
    + intros e. reflexivity.
    + intros k _. reflexivity.
    + discriminate.
    + discriminate.
  - intros e. reflexivity.
Defined.

(** the pool a load gives depends on the sessions file and the key file
    only, once there is a key or encryption is off *)
Lemma load_reads_two_files (env : Env) (file : string) (ent : Entropy env)
      (fs1 fs2 : gmap string (bytes env)) :
  fs1 !! file = fs2 !! file ->
  fs1 !! KEY_FILE env = fs2 !! KEY_FILE env ->
  USE_ENCRYPTION env = false \/ is_Some (fs1 !! KEY_FILE env) ->
  fst (_load_sessions env file ent fs1) = fst (_load_sessions env file ent fs2).
Proof.
  intros Hfile Hkey Hmode. unfold _load_sessions. rewrite <- Hfile.
  destruct (fs1 !! file) as [raw |] eqn:Eraw; [| reflexivity].
  unfold _get_fernet. destruct Hmode as [Hoff | [key Hk]].
  - rewrite Hoff. cbn [negb fst]. rewrite Eraw, <- Hfile. reflexivity.
  - destruct (USE_ENCRYPTION env); cbn [negb fst].
    + rewrite <- Hkey, Hk. destruct (fernet_accepts env key); cbn [fst];
        [| reflexivity].
      rewrite Eraw, <- Hfile. reflexivity.
    + rewrite Eraw, <- Hfile. reflexivity.
Qed.

(** X29: Atomicity of a save: between the write of the temporary file and
    [os.replace], the sessions file still holds what it held, and a load
    gives the pool it gave before the save began; [os.replace] then
    completes the save in one step. *)
Theorem interrupted_save_keeps_file (env : Env) (self : SessionManager)
        (ent ent' : Entropy env) (fs : gmap string (bytes env)) :
  KEY_FILE env <> sessions_file self ->
  KEY_FILE env <> tmp_path_of (sessions_file self) ->
  USE_ENCRYPTION env = false \/ is_Some (fs !! KEY_FILE env) ->
  let partial := save_before_replace env self ent fs in
  partial !! sessions_file self = fs !! sessions_file self
  /\ fst (_load_sessions env (sessions_file self) ent' partial)
     = fst (_load_sessions env (sessions_file self) ent' fs)
  /\ (_save_sessions_atomic env self ent fs = partial
      \/ _save_sessions_atomic env self ent fs
         = os_replace env (tmp_path_of (sessions_file self)) (sessions_file self)
             partial).
Proof.
  intros Hne1 Hne2 Hmode. cbn zeta.
  assert (Hkeep : forall path,
             path <> tmp_path_of (sessions_file self) ->
             (path <> KEY_FILE env \/ is_Some (fs !! KEY_FILE env)
              \/ USE_ENCRYPTION env = false) ->
             save_before_replace env self ent fs !! path = fs !! path).
  { intros path Htmp Hpath. unfold save_before_replace.
    assert (Hf : snd (_get_fernet env ent fs) !! path = fs !! path).
    { destruct Hpath as [Hp | [[key Hk] | Hoff]].
      - apply get_fernet_frame. exact Hp.
      - rewrite (get_fernet_keeps_key env ent fs key Hk). reflexivity.
      - unfold _get_fernet. rewrite Hoff. reflexivity. }
    destruct (_get_fernet env ent fs) as [[| key |] fs1]; cbn [snd] in Hf;
      rewrite ?lookup_insert_ne by congruence; exact Hf. }
  assert (Hfile : save_before_replace env self ent fs !! sessions_file self
                  = fs !! sessions_file self).
  { apply Hkeep; [intros E; exact (tmp_path_fresh _ (eq_sym E)) |].
    left. congruence. }
  assert (Hkeyf : save_before_replace env self ent fs !! KEY_FILE env
                  = fs !! KEY_FILE env).
  { apply Hkeep; [exact Hne2 |]. right. destruct Hmode; [right | left]; assumption. }
  split; [exact Hfile |]. split.
  - apply load_reads_two_files; [exact Hfile | exact Hkeyf |].
    destruct Hmode as [Hoff | Hk]; [left; exact Hoff | right].
    rewrite Hkeyf. exact Hk.
  - unfold _save_sessions_atomic, save_before_replace.
    destruct (_get_fernet env ent fs) as [[| key |] fs1];
      [right; reflexivity | right; reflexivity | left; reflexivity].
Qed.

Lemma interrupted_save_keeps_file_witness :
  let env := Samples.sample_env false in
  let old := mkManager "sessions.json" [Samples.session_A] in
  let new := mkManager "sessions.json" [touch 99.0 Samples.session_A] in
  let fs := _save_sessions_atomic env old tt ∅ in
  fst (_load_sessions env "sessions.json" tt (save_before_replace env new tt fs))
  = fst (_load_sessions env "sessions.json" tt fs).
Proof.
  apply (interrupted_save_keeps_file (Samples.sample_env false)
           (mkManager "sessions.json" [touch 99.0 Samples.session_A]) tt tt
           (_save_sessions_atomic (Samples.sample_env false)
              (mkManager "sessions.json" [Samples.session_A]) tt ∅));
    [discriminate | discriminate | left; reflexivity].
Defined.

End PersistenceMore.
